(** * yuv2rgb.py: raw NV21 frame to jpg/png through ffmpeg

    A shallow embedding of [scripts/yuv2rgb.py] and the properties of its
    metadata parser, its output-extension check, the ffmpeg command it
    builds and the order of its effects.

    Modelling choices.
    - A Python [str] is a [string]: a sequence of characters whose codes
      are read as the code points U+0000 .. U+00FF.
    - The two effects of the script, [open(path, 'r')] and
      [subprocess.call(cmd)], are operations of a small monad [Py] that
      reads an environment ([World]), may raise a Python exception and
      records the effects it performs in a trace.
    - [argparse] is library code: [main] takes the parsed namespace. *)

From Stdlib Require Import String Ascii List Bool Arith ZArith Lia.
Import ListNotations.
Open Scope list_scope.
Open Scope string_scope.

(** ** Python string operations used by the script *)

Module PyStr.

Definition LF : ascii := "010"%char.
Definition CR : ascii := "013"%char.
Definition SP : ascii := " "%char.

(** [str.isspace] on one character, for code points below 256:
    TAB, LF, VT, FF, CR, FS, GS, RS, US, SPACE, NEL (U+0085) and
    NBSP (U+00A0). *)
Definition isspace (c : ascii) : bool :=
  let n := nat_of_ascii c in
  (((9 <=? n) && (n <=? 13)) || ((28 <=? n) && (n <=? 32))
   || (n =? 133) || (n =? 160))%nat.

(** [s.lstrip()] *)
Fixpoint lstrip (s : string) : string :=
  match s with
  | EmptyString => EmptyString
  | String c s' => if isspace c then lstrip s' else s
  end.

(** [s.rstrip()] *)
Fixpoint rstrip (s : string) : string :=
  match s with
  | EmptyString => EmptyString
  | String c s' =>
      match rstrip s' with
      | EmptyString => if isspace c then EmptyString else String c EmptyString
      | r => String c r
      end
  end.

(** [s.strip()] *)
Definition strip (s : string) : string := rstrip (lstrip s).

(** [s.split(sep)] for a separator of one character.  The result is never
    empty: a string without the separator gives a one-element list. *)
Fixpoint split (sep : ascii) (s : string) : list string :=
  match s with
  | EmptyString => [EmptyString]
  | String c s' =>
      if Ascii.eqb c sep then EmptyString :: split sep s'
      else match split sep s' with
           | [] => [String c EmptyString]
           | h :: t => String c h :: t
           end
  end.

(** [str.lower] on one character, for code points below 256: A-Z, and
    U+00C0 .. U+00DE without the multiplication sign U+00D7. *)
Definition lower_char (c : ascii) : ascii :=
  let n := nat_of_ascii c in
  if (((65 <=? n) && (n <=? 90))
      || ((192 <=? n) && (n <=? 222) && negb (n =? 215)))%nat
  then ascii_of_nat (n + 32) else c.

(** [s.lower()] *)
Fixpoint lower (s : string) : string :=
  match s with
  | EmptyString => EmptyString
  | String c s' => String (lower_char c) (lower s')
  end.

(** [s.endswith(suffix)] *)
Definition endswith (s suffix : string) : bool :=
  (String.length suffix <=? String.length s)%nat
  && String.eqb
       (substring (String.length s - String.length suffix)
                  (String.length suffix) s)
       suffix.

(** [f.readlines()] of a file opened in text mode with the default
    [newline=None]: lines end at LF, CR or CR LF, the terminator is
    returned as LF and kept at the end of its line; a last line without a
    terminator is returned as it is. *)
Fixpoint readlines (s : string) : list string :=
  match s with
  | EmptyString => []
  | String c s' =>
      if Ascii.eqb c LF then String LF EmptyString :: readlines s'
      else if Ascii.eqb c CR then
        match s' with
        | String c' s'' =>
            if Ascii.eqb c' LF then String LF EmptyString :: readlines s''
            else String LF EmptyString :: readlines s'
        | EmptyString => [String LF EmptyString]
        end
      else match readlines s' with
           | [] => [String c EmptyString]
           | l :: ls => String c l :: ls
           end
  end.

End PyStr.
Import PyStr.

(** [s] contains the character [c]. *)
Fixpoint contains (c : ascii) (s : string) : bool :=
  match s with
  | EmptyString => false
  | String d s' => Ascii.eqb d c || contains c s'
  end.

(** ** Effects: exceptions, the environment and the trace *)

(** The exceptions the script can end with.  [OSError] stands for the
    whole family raised by [open] (FileNotFoundError, PermissionError, ...)
    and by [subprocess.call] when the executable cannot be started; its
    argument is the file or program concerned.  [ValueError] is raised by
    the script itself for a refused output path, and by [subprocess.call]
    for an argument that holds the character NUL. *)
Inductive Exn : Type :=
| OSError (target : string)
| IndexError
| ValueError (msg : string).

Inductive Result (A : Type) : Type :=
| Ok (a : A)
| Raise (e : Exn).
Arguments Ok {A} a.
Arguments Raise {A} e.

(** What the script does to the outside, in the order it does it. *)
Inductive Event : Type :=
| EvOpen (path : string)
| EvCall (argv : list string).

(** The environment of one run: [files path] is the text of the file at
    [path], [None] when it does not exist or cannot be read (a file whose
    bytes do not decode to text is not represented: the environment gives
    text only); [tool argv] is the exit status of the executable started
    with [argv], [None] when the executable cannot be started. *)
Record World : Type := {
  files : string -> option string;
  tool : list string -> option Z
}.

Definition NUL : ascii := "000"%char.

(** An element of [argv] holds NUL: no process can be given such an
    argument. *)
Definition has_nul (argv : list string) : bool :=
  existsb (contains NUL) argv.

(** [spawn w argv] is the exit status of the child process started with
    [argv], [None] when no child is started: an element of [argv] holds
    NUL, or the executable cannot be started. *)
Definition spawn (w : World) (argv : list string) : option Z :=
  if has_nul argv then None else tool w argv.

Definition Py (A : Type) : Type := World -> Result A * list Event.

Definition ret {A} (a : A) : Py A := fun _ => (Ok a, []).

Definition raise {A} (e : Exn) : Py A := fun _ => (Raise e, []).

Definition bind {A B} (m : Py A) (k : A -> Py B) : Py B :=
  fun w =>
    match m w with
    | (Ok a, t1) => let (r, t2) := k a w in (r, (t1 ++ t2)%list)
    | (Raise e, t1) => (Raise e, t1)
    end.

Declare Scope py_scope.
Delimit Scope py_scope with py.
Notation "x <- m ;; k" := (bind m (fun x => k))
  (at level 100, m at next level, right associativity) : py_scope.
Notation "m ;; k" := (bind m (fun _ => k))
  (at level 100, right associativity) : py_scope.
Open Scope py_scope.

(** [open(path, 'r')] followed by reading the whole text. *)
Definition open_r (path : string) : Py string :=
  fun w =>
    match files w path with
    | Some text => (Ok text, [EvOpen path])
    | None => (Raise (OSError path), [EvOpen path])
    end.

(** [l[i]] *)
Definition getitem {A} (l : list A) (i : nat) : Py A :=
  match nth_error l i with
  | Some x => ret x
  | None => raise IndexError
  end.

Definition null_byte_message : string := "embedded null byte".

(** [subprocess.call(argv)]: the arguments are converted first, and an
    element holding NUL raises [ValueError] before any process is started;
    otherwise start the child, wait for it and return its exit status. *)
Definition subprocess_call (argv : list string) : Py Z :=
  fun w =>
    if has_nul argv
    then (Raise (ValueError null_byte_message), [EvCall argv])
    else match tool w argv with
         | Some status => (Ok status, [EvCall argv])
         | None => (Raise (OSError (hd "" argv)), [EvCall argv])
         end.

(** Exit status of the interpreter: 0 when the script runs to its end,
    1 when an exception is not caught. *)
Definition exit_status {A} (r : Result A) : Z :=
  match r with
  | Ok _ => 0%Z
  | Raise _ => 1%Z
  end.

(** ** The script *)

Definition parse_meta (path : string) : Py (string * string * string) :=
  f <- open_r path ;;
  let lines := map strip (readlines f) in
  l0 <- getitem lines 0 ;;
  img_width <- getitem (split SP l0) 1 ;;
  l1 <- getitem lines 1 ;;
  img_height <- getitem (split SP l1) 1 ;;
  l2 <- getitem lines 2 ;;
  img_pixel_format <- getitem (split SP l2) 1 ;;
  ret (img_width, img_height, img_pixel_format).

(** The namespace returned by [parser.parse_args()].  Its strings come
    from the argument vector of the process, which holds no NUL. *)
Record Namespace : Type := {
  overwrite : bool;
  input : string;
  meta : string;
  output : string
}.

Definition overwrite_flag (args : Namespace) : string :=
  if overwrite args then "-y" else "-n".

Definition cmd (args : Namespace) (width height pixel_format : string)
  : list string :=
  [ "ffmpeg"; overwrite_flag args; "-f"; "image2"; "-vcodec"; "rawvideo";
    "-pix_fmt"; pixel_format; "-s"; width ++ "x" ++ height; "-i"; input args;
    output args ].

Definition error_message : string := "output must end in jpg or png.".

Definition main (args : Namespace) : Py unit :=
  (if negb (endswith (output args) ".jpg")
      && negb (endswith (output args) ".png")
   then raise (ValueError error_message)
   else ret tt) ;;
  m <- parse_meta (meta args) ;;
  let '(width, height, pixel_format) := m in
  let pixel_format := lower pixel_format in
  subprocess_call (cmd args width height pixel_format) ;;
  ret tt.

(** Number of [subprocess.call]s in a trace. *)
Fixpoint calls (t : list Event) : nat :=
  match t with
  | [] => 0
  | EvCall _ :: t' => S (calls t')
  | EvOpen _ :: t' => calls t'
  end.

(** ** Vocabulary of the properties *)

(** Every character of [s] is white space. *)
Fixpoint all_space (s : string) : bool :=
  match s with
  | EmptyString => true
  | String c s' => isspace c && all_space s'
  end.

(** No character of [s] is white space. *)
Fixpoint no_space (s : string) : bool :=
  match s with
  | EmptyString => true
  | String c s' => negb (isspace c) && no_space s'
  end.

(** A token: not empty and free of white space. *)
Definition token (s : string) : bool :=
  negb (String.eqb s "") && no_space s.

(** [line] is [label], one space and [value], with any white space
    before and after (the line terminator is part of the latter). *)
Definition meta_line (label value line : string) : Prop :=
  exists pre post,
    line = pre ++ label ++ " " ++ value ++ post
    /\ all_space pre = true /\ all_space post = true.

(** [s] holds no line terminator. *)
Definition one_line (s : string) : bool :=
  negb (contains LF s) && negb (contains CR s).

(** The output suffix the script accepts. *)
Definition valid_output (args : Namespace) : bool :=
  endswith (output args) ".jpg" || endswith (output args) ".png".

(** [argv] of every [subprocess.call] of a trace, in order. *)
Fixpoint called (t : list Event) : list (list string) :=
  match t with
  | [] => []
  | EvCall argv :: t' => argv :: called t'
  | EvOpen _ :: t' => called t'
  end.

(** The value of metadata line [i] of the stripped lines: the second piece
    of the line split at single spaces. *)
Definition field (lines : list string) (i : nat) : option string :=
  match nth_error lines i with
  | Some l => nth_error (split SP l) 1
  | None => None
  end.

(** The failure the specification announces for a metadata path: a file
    access error when the file is missing or unreadable, a format error
    when it has fewer than three lines or one of the first three, stripped,
    has no space. *)
Definition expected_meta_error (w : World) (path : string) : option Exn :=
  match files w path with
  | None => Some (OSError path)
  | Some text =>
      let ls := readlines text in
      if (List.length ls <? 3)%nat
         || existsb (fun l => negb (contains SP (strip l))) (firstn 3 ls)
      then Some IndexError else None
  end.

(** An upper-case ASCII letter, A to Z. *)
Definition is_upper (c : ascii) : bool :=
  let n := nat_of_ascii c in ((65 <=? n) && (n <=? 90))%nat.

(** [s] has an upper-case ASCII letter. *)
Fixpoint has_upper (s : string) : bool :=
  match s with
  | EmptyString => false
  | String c s' => is_upper c || has_upper s'
  end.

Definition with_overwrite (b : bool) (args : Namespace) : Namespace :=
  {| overwrite := b; input := input args; meta := meta args;
     output := output args |}.

(** How [main] ends once [subprocess.call] is reached with [argv]: the
    exit status of the child is dropped. *)
Definition call_result (w : World) (argv : list string) : Result unit :=
  match fst (subprocess_call argv w) with
  | Ok _ => Ok tt
  | Raise e => Raise e
  end.

(** ** Concrete runs *)

Definition TAB : ascii := "009"%char.

(** A world with one file. *)
Definition world_with (path text : string) (tool : list string -> option Z)
  : World :=
  {| files := fun p => if String.eqb p path then Some text else None;
     tool := tool |}.

Definition world_no_files : World :=
  {| files := fun _ => None; tool := fun _ => Some 0%Z |}.

Definition metadata_640x480 : string :=
  "width 640" ++ String LF "height 480" ++ String LF "pixel_format NV21"
  ++ String LF "".

Definition world_640x480 (tool : list string -> option Z) : World :=
  world_with "meta.txt" metadata_640x480 tool.

(** White space before and after the lines, a CR LF terminator and a last
    line without terminator. *)
Definition metadata_padded : string :=
  "  width 640 " ++ String TAB (String LF "height 480")
  ++ String CR (String LF (String TAB "pixel_format NV21  ")).

(** Two spaces between label and value. *)
Definition metadata_double_space : string :=
  "width  640" ++ String LF "height 480" ++ String LF "pixel_format NV21"
  ++ String LF "".

Definition metadata_two_lines : string :=
  "width 640" ++ String LF "height 480" ++ String LF "".

Definition metadata_no_value : string :=
  "width 640" ++ String LF "height" ++ String LF "pixel_format NV21"
  ++ String LF "".

Definition metadata_not_numeric : string :=
  "width abc" ++ String LF "height -5" ++ String LF "pixel_format NV21"
  ++ String LF "".


Definition ffmpeg_status (status : Z) : list string -> option Z :=
  fun _ => Some status.

Definition args_jpg : Namespace :=
  {| overwrite := false; input := "input.nv21"; meta := "meta.txt";
     output := "out.jpg" |}.

Definition args_png_overwrite : Namespace :=
  {| overwrite := true; input := "input.nv21"; meta := "meta.txt";
     output := "out.png" |}.

Definition args_output (out : string) : Namespace :=
  {| overwrite := false; input := "input.nv21"; meta := "meta.txt";
     output := out |}.

Definition args_gif_missing : Namespace :=
  {| overwrite := false; input := "input.nv21"; meta := "missing.txt";
     output := "out.gif" |}.

(** The input path is the string of the other flag. *)
Definition args_input_dash_y : Namespace :=
  {| overwrite := false; input := "-y"; meta := "meta.txt";
     output := "out.jpg" |}.

Definition cmd_640x480 : list string :=
  ["ffmpeg"; "-n"; "-f"; "image2"; "-vcodec"; "rawvideo"; "-pix_fmt"; "nv21";
   "-s"; "640x480"; "-i"; "input.nv21"; "out.jpg"].

(** Labels that are not the expected ones, in another order. *)
Definition metadata_other_labels : string :=
  "height 640" ++ String LF "w 480" ++ String LF "fmt NV21" ++ String LF "".

(** More text after the value. *)
Definition metadata_trailing_fields : string :=
  "width 640 px" ++ String LF "height 480  # rows" ++ String LF
  "pixel_format NV21 YUV" ++ String LF "".

(** CR LF and CR terminators. *)
Definition metadata_crlf : string :=
  "width 640" ++ String CR (String LF "height 480")
  ++ String CR "pixel_format NV21" ++ String CR (String LF "").

(** No terminator after the third line. *)
Definition metadata_no_final_newline : string :=
  "width 640" ++ String LF "height 480" ++ String LF "pixel_format NV21".

(** A pixel format written in lower case. *)
Definition metadata_lower_case : string :=
  "width 640" ++ String LF "height 480" ++ String LF "pixel_format nv21"
  ++ String LF "".

(** A world with the metadata file and other files beside it. *)
Definition world_more_files (tool : list string -> option Z) : World :=
  {| files := fun p => if String.eqb p "meta.txt" then Some metadata_640x480
                       else Some "unrelated";
     tool := tool |}.

(** The executable cannot be started. *)
Definition ffmpeg_missing : list string -> option Z := fun _ => None.

(** A width that holds NUL. *)
Definition metadata_nul_width : string :=
  "width 6" ++ String NUL "40" ++ String LF "height 480" ++ String LF
  "pixel_format NV21" ++ String LF "".

(** Every character of [s] is below U+0080. *)
Fixpoint is_ascii (s : string) : bool :=
  match s with
  | EmptyString => true
  | String c s' => (nat_of_ascii c <? 128)%nat && is_ascii s'
  end.

(** [v] is the text between the first and the second space of the
    stripped [line], or from the first space to its end when there is no
    second one. *)
Definition second_piece (v line : string) : Prop :=
  exists a r,
    strip line = a ++ " " ++ v ++ r
    /\ contains SP a = false /\ contains SP v = false
    /\ (r = "" \/ exists r', r = String SP r').

(** Component [i] of the triple returned by [parse_meta]. *)
Definition value_at (i : nat) (m : string * string * string) : string :=
  match i with
  | 0 => fst (fst m)
  | 1 => snd (fst m)
  | _ => snd m
  end.

(** [s] with every LF replaced by the terminator [nl]. *)
Fixpoint replace_lf (nl s : string) : string :=
  match s with
  | EmptyString => EmptyString
  | String c s' =>
      if Ascii.eqb c LF then nl ++ replace_lf nl s'
      else String c (replace_lf nl s')
  end.

Definition CRLF : string := String CR (String LF "").

(** The lines [ls'] are the lines [ls] after one LF was written at the end
    of the text: one more line holding the LF alone, or the last line now
    terminated, or no change (the text ended in CR). *)
Definition lf_added (ls' ls : list string) : Prop :=
  ls' = (ls ++ [String LF ""])%list
  \/ (exists pre l, ls = (pre ++ [l])%list
                    /\ ls' = (pre ++ [(l ++ String LF "")%string])%list)
  \/ ls' = ls.

(** ** Examples *)

Example strip_ex : strip ("  width 640 " ++ String LF "") = "width 640".
Proof. reflexivity. Qed.
Example split_ex : split SP "a  b c" = ["a"; ""; "b"; "c"].
Proof. reflexivity. Qed.
Example readlines_ex :
  readlines ("ab" ++ String CR (String LF "cd") ++ String CR "e")
  = ["ab" ++ String LF ""; "cd" ++ String LF ""; "e"].
Proof. reflexivity. Qed.
Example endswith_ex :
  endswith "out.jpg" ".jpg" = true /\ endswith "out.JPG" ".jpg" = false
  /\ endswith "jpg" ".jpg" = false.
Proof. repeat split. Qed.
Example lower_ex : lower "NV21" = "nv21".
Proof. reflexivity. Qed.

Example main_ex :
  main args_jpg (world_640x480 (ffmpeg_status 1))
  = (Ok tt, [EvOpen "meta.txt"; EvCall cmd_640x480]).
Proof. reflexivity. Qed.

Example main_png_overwrite_ex :
  main args_png_overwrite (world_640x480 (ffmpeg_status 0))
  = (Ok tt,
     [EvOpen "meta.txt";
      EvCall ["ffmpeg"; "-y"; "-f"; "image2"; "-vcodec"; "rawvideo";
              "-pix_fmt"; "nv21"; "-s"; "640x480"; "-i"; "input.nv21";
              "out.png"]]).
Proof. reflexivity. Qed.

Example main_two_lines_ex :
  main args_jpg (world_with "meta.txt" metadata_two_lines (ffmpeg_status 0))
  = (Raise IndexError, [EvOpen "meta.txt"]).
Proof. reflexivity. Qed.

Example main_bmp_ex :
  main (args_output "result.bmp") (world_640x480 (ffmpeg_status 0))
  = (Raise (ValueError error_message), []).
Proof. reflexivity. Qed.

(** The separator is one space: with two, the second piece is empty. *)
Example parse_meta_double_space_ex :
  parse_meta "meta.txt"
    (world_with "meta.txt" metadata_double_space (ffmpeg_status 0))
  = (Ok ("", "480", "NV21"), [EvOpen "meta.txt"]).
Proof. reflexivity. Qed.

(** A path given as input is placed after [-i], whatever its text. *)
Example main_input_dash_y_ex :
  called (snd (main args_input_dash_y (world_640x480 (ffmpeg_status 0))))
  = [["ffmpeg"; "-n"; "-f"; "image2"; "-vcodec"; "rawvideo"; "-pix_fmt";
      "nv21"; "-s"; "640x480"; "-i"; "-y"; "out.jpg"]].
Proof. reflexivity. Qed.

(** ** Facts about the string operations *)

Lemma append_assoc (a b c : string) : (a ++ b) ++ c = a ++ (b ++ c).
Proof. induction a as [|x a IH]; simpl; [reflexivity | now rewrite IH]. Qed.

Lemma append_empty_r (a : string) : a ++ "" = a.
Proof. induction a as [|x a IH]; simpl; [reflexivity | now rewrite IH]. Qed.

Lemma append_length (a b : string) :
  String.length (a ++ b) = String.length a + String.length b.
Proof. induction a as [|x a IH]; simpl; [reflexivity | now rewrite IH]. Qed.

Lemma isspace_SP : isspace SP = true.
Proof. reflexivity. Qed.

Lemma isspace_LF : isspace LF = true.
Proof. reflexivity. Qed.

Lemma no_space_contains (c : ascii) (s : string) :
  no_space s = true -> isspace c = true -> contains c s = false.
Proof.
  intros Hs Hc. induction s as [|d s IH]; simpl in *; [reflexivity|].
  apply andb_true_iff in Hs as [Hd Hs].
  rewrite (IH Hs), orb_false_r.
  destruct (Ascii.eqb_spec d c) as [->|]; [|reflexivity].
  now rewrite Hc in Hd.
Qed.

Lemma token_inv (s : string) :
  token s = true ->
  exists c s', s = String c s' /\ isspace c = false /\ no_space s' = true.
Proof.
  unfold token. destruct s as [|c s]; simpl; [discriminate|].
  intros H. apply andb_true_iff in H as [Hc Hs].
  exists c, s. now rewrite negb_true_iff in Hc.
Qed.

Lemma token_no_space (s : string) : token s = true -> no_space s = true.
Proof. unfold token. intros H. now apply andb_true_iff in H. Qed.

(** *** [strip] *)

Lemma lstrip_all_space (pre s : string) :
  all_space pre = true -> lstrip (pre ++ s) = lstrip s.
Proof.
  induction pre as [|c pre IH]; simpl; [reflexivity|].
  intros H. apply andb_true_iff in H as [Hc Hp]. now rewrite Hc, IH.
Qed.

Lemma rstrip_all_space (post : string) :
  all_space post = true -> rstrip post = "".
Proof.
  induction post as [|c post IH]; simpl; [reflexivity|].
  intros H. apply andb_true_iff in H as [Hc Hp]. now rewrite IH, Hc.
Qed.

Lemma rstrip_app_space (s post : string) :
  all_space post = true -> rstrip (s ++ post) = rstrip s.
Proof.
  intros H. induction s as [|c s IH]; simpl.
  - now apply rstrip_all_space.
  - now rewrite IH.
Qed.

Lemma rstrip_no_space (s : string) : no_space s = true -> rstrip s = s.
Proof.
  induction s as [|c s IH]; simpl; [reflexivity|].
  intros H. apply andb_true_iff in H as [Hc Hs].
  rewrite (IH Hs). rewrite negb_true_iff in Hc.
  destruct s; [now rewrite Hc | reflexivity].
Qed.

Lemma rstrip_keeps_prefix (a b : string) :
  rstrip b <> "" -> rstrip (a ++ b) = a ++ rstrip b.
Proof.
  intros H. induction a as [|c a IH]; simpl; [reflexivity|].
  rewrite IH. destruct a; simpl; [|reflexivity].
  destruct (rstrip b); [contradiction | reflexivity].
Qed.

Lemma strip_meta_line (label value line : string) :
  token label = true -> token value = true ->
  meta_line label value line ->
  strip line = label ++ " " ++ value.
Proof.
  intros Hl Hv (pre & post & -> & Hpre & Hpost).
  unfold strip. rewrite lstrip_all_space by assumption.
  destruct (token_inv _ Hl) as (c & l' & -> & Hc & _).
  simpl lstrip. rewrite Hc.
  assert (Hrv : rstrip value = value)
    by (apply rstrip_no_space, token_no_space, Hv).
  assert (Hne : rstrip value <> "").
  { rewrite Hrv. destruct (token_inv _ Hv) as (d & v' & -> & _).
    discriminate. }
  assert (E : String c (l' ++ String " " (value ++ post))
              = ((String c l' ++ " ") ++ value) ++ post)
    by now rewrite !append_assoc.
  rewrite E, rstrip_app_space by assumption.
  rewrite (rstrip_keeps_prefix _ _ Hne), Hrv.
  now rewrite append_assoc.
Qed.

(** *** [split] *)

Lemma split_no_sep (sep : ascii) (s : string) :
  contains sep s = false -> split sep s = [s].
Proof.
  induction s as [|c s IH]; simpl; [reflexivity|].
  intros H. apply orb_false_iff in H as [Hc Hs].
  now rewrite Hc, (IH Hs).
Qed.

Lemma split_app_sep (sep : ascii) (a b : string) :
  contains sep a = false ->
  split sep (a ++ String sep b) = a :: split sep b.
Proof.
  induction a as [|c a IH]; simpl.
  - intros _. now rewrite Ascii.eqb_refl.
  - intros H. apply orb_false_iff in H as [Hc Ha].
    now rewrite Hc, (IH Ha).
Qed.

Lemma split_with_sep (sep : ascii) (s : string) :
  contains sep s = true -> exists a b t, split sep s = a :: b :: t.
Proof.
  induction s as [|c s IH]; simpl; [discriminate|].
  destruct (Ascii.eqb c sep) eqn:Hc; simpl.
  - intros _. destruct s as [|d s]; simpl.
    + now exists "", "", [].
    + destruct (Ascii.eqb d sep).
      * eexists _, _, _. reflexivity.
      * destruct (split sep s); eexists _, _, _; reflexivity.
  - intros H. destruct (IH H) as (a & b & t & ->).
    now exists (String c a), b, t.
Qed.

Lemma split_second (sep : ascii) (s : string) :
  nth_error (split sep s) 1 = None <-> contains sep s = false.
Proof.
  split.
  - intros H. destruct (contains sep s) eqn:E; [|reflexivity].
    destruct (split_with_sep _ _ E) as (a & b & t & Hs).
    rewrite Hs in H. discriminate.
  - intros H. now rewrite split_no_sep.
Qed.

Lemma split_label_value (label value : string) :
  token label = true -> token value = true ->
  nth_error (split SP (label ++ " " ++ value)) 1 = Some value.
Proof.
  intros Hl Hv.
  change (label ++ " " ++ value) with (label ++ String SP value).
  rewrite split_app_sep, split_no_sep; try reflexivity;
    apply no_space_contains; auto using token_no_space, isspace_SP.
Qed.

(** *** [readlines] *)

Lemma readlines_line (l rest : string) :
  one_line l = true ->
  readlines (l ++ String LF rest) = (l ++ String LF "") :: readlines rest.
Proof.
  unfold one_line. induction l as [|c l IH]; simpl; [reflexivity|].
  intros H. apply andb_true_iff in H as [H1 H2].
  rewrite negb_true_iff in H1, H2.
  apply orb_false_iff in H1 as [Hc1 Hl1].
  apply orb_false_iff in H2 as [Hc2 Hl2].
  rewrite Hc1, Hc2, IH; [reflexivity|].
  now rewrite Hl1, Hl2.
Qed.

(** *** [endswith] *)

Lemma substring_whole (s : string) : substring 0 (String.length s) s = s.
Proof. induction s as [|c s IH]; simpl; [reflexivity | now rewrite IH]. Qed.

Lemma substring_skip (p s : string) (n : nat) :
  substring (String.length p) n (p ++ s) = substring 0 n s.
Proof. induction p as [|c p IH]; simpl; [reflexivity | exact IH]. Qed.

Lemma substring_cut (s : string) (n : nat) :
  n <= String.length s ->
  s = substring 0 n s ++ substring n (String.length s - n) s.
Proof.
  revert n. induction s as [|c s IH]; intros [|n] H; simpl in *;
    try reflexivity; try lia.
  - now rewrite substring_whole.
  - f_equal. apply IH. lia.
Qed.

(** [endswith] is the suffix relation. *)
Lemma endswith_spec (s suffix : string) :
  endswith s suffix = true <-> exists p, s = p ++ suffix.
Proof.
  unfold endswith. split.
  - intros H. apply andb_true_iff in H as [Hlen Heq].
    apply Nat.leb_le in Hlen. apply String.eqb_eq in Heq.
    exists (substring 0 (String.length s - String.length suffix) s).
    pose proof (substring_cut s (String.length s - String.length suffix))
      as Hcut.
    replace (String.length s - (String.length s - String.length suffix))
      with (String.length suffix) in Hcut by lia.
    rewrite Heq in Hcut. apply Hcut. lia.
  - intros [p ->]. rewrite append_length.
    apply andb_true_iff. split; [apply Nat.leb_le; lia|].
    replace (String.length p + String.length suffix - String.length suffix)
      with (String.length p) by lia.
    rewrite substring_skip, substring_whole. apply String.eqb_refl.
Qed.

(** *** [lower] *)

Lemma lower_length (s : string) : String.length (lower s) = String.length s.
Proof. induction s as [|c s IH]; simpl; [reflexivity | now rewrite IH]. Qed.

Lemma lower_char_idempotent (c : ascii) :
  lower_char (lower_char c) = lower_char c.
Proof.
  destruct c as [[] [] [] [] [] [] [] []]; reflexivity.
Qed.

Lemma lower_idempotent (s : string) : lower (lower s) = lower s.
Proof.
  induction s as [|c s IH]; simpl; [reflexivity|].
  now rewrite lower_char_idempotent, IH.
Qed.

Lemma lower_char_not_upper (c : ascii) : is_upper (lower_char c) = false.
Proof.
  destruct c as [[] [] [] [] [] [] [] []]; reflexivity.
Qed.

Lemma lower_char_upper (c : ascii) :
  is_upper c = true -> nat_of_ascii (lower_char c) = nat_of_ascii c + 32.
Proof.
  destruct c as [[] [] [] [] [] [] [] []]; intros H;
    solve [discriminate H | reflexivity].
Qed.

Lemma lower_char_ascii_other (c : ascii) :
  is_upper c = false -> (nat_of_ascii c <? 128)%nat = true ->
  lower_char c = c.
Proof.
  destruct c as [[] [] [] [] [] [] [] []]; intros H1 H2;
    solve [discriminate H1 | discriminate H2 | reflexivity].
Qed.

Lemma lower_no_upper (s : string) : has_upper (lower s) = false.
Proof.
  induction s as [|c s IH]; simpl; [reflexivity|].
  now rewrite lower_char_not_upper, IH.
Qed.

(** ** Running the script *)

Lemma bind_getitem {A B} (l : list A) (i : nat) (k : A -> Py B) (w : World) :
  bind (getitem l i) k w =
  match nth_error l i with
  | Some x => k x w
  | None => (Raise IndexError, [])
  end.
Proof.
  unfold bind, getitem. destruct (nth_error l i) as [x|]; simpl.
  - now destruct (k x w).
  - reflexivity.
Qed.

Lemma bind_open_r {B} (path : string) (k : string -> Py B) (w : World) :
  bind (open_r path) k w =
  match files w path with
  | Some text => let (r, t) := k text w in (r, EvOpen path :: t)
  | None => (Raise (OSError path), [EvOpen path])
  end.
Proof.
  unfold bind, open_r. now destruct (files w path).
Qed.

(** [parse_meta] opens the file once, and then either finds the three
    values or raises [IndexError]. *)
Lemma parse_meta_eq (path : string) (w : World) :
  parse_meta path w =
  match files w path with
  | None => (Raise (OSError path), [EvOpen path])
  | Some text =>
      let lines := map strip (readlines text) in
      (match field lines 0, field lines 1, field lines 2 with
       | Some a, Some b, Some c => Ok (a, b, c)
       | _, _, _ => Raise IndexError
       end, [EvOpen path])
  end.
Proof.
  unfold parse_meta. rewrite bind_open_r.
  destruct (files w path) as [text|]; [|reflexivity].
  cbv zeta. generalize (map strip (readlines text)). intros lines.
  unfold field.
  repeat (rewrite bind_getitem;
          match goal with
          | |- context [match nth_error ?l ?i with _ => _ end] =>
              destruct (nth_error l i)
          end; try reflexivity).
Qed.

Lemma parse_meta_trace (path : string) (w : World) :
  snd (parse_meta path w) = [EvOpen path].
Proof.
  rewrite parse_meta_eq. now destruct (files w path).
Qed.

Lemma parse_meta_trace_eq (path : string) (w : World) r t :
  parse_meta path w = (r, t) -> t = [EvOpen path].
Proof.
  intros H. pose proof (parse_meta_trace path w) as Ht.
  now rewrite H in Ht.
Qed.

(** *** The call of the command *)

Lemma call_result_cases (w : World) (argv : list string) :
  call_result w argv =
  match spawn w argv with
  | Some _ => Ok tt
  | None =>
      if has_nul argv then Raise (ValueError null_byte_message)
      else Raise (OSError (hd "" argv))
  end.
Proof.
  unfold call_result, subprocess_call, spawn.
  destruct (has_nul argv); [reflexivity|]. now destruct (tool w argv).
Qed.

Lemma call_result_started (w : World) (argv : list string) (status : Z) :
  spawn w argv = Some status -> call_result w argv = Ok tt.
Proof. intros H. now rewrite call_result_cases, H. Qed.

Lemma call_result_ok_iff (w : World) (argv : list string) :
  call_result w argv = Ok tt <-> spawn w argv <> None.
Proof.
  rewrite call_result_cases. destruct (spawn w argv).
  - split; [discriminate | reflexivity].
  - destruct (has_nul argv); split; try discriminate; now intros [].
Qed.

Lemma call_result_not_index (w : World) (argv : list string) :
  call_result w argv <> Raise IndexError.
Proof.
  rewrite call_result_cases.
  destruct (spawn w argv); [|destruct (has_nul argv)]; discriminate.
Qed.

Lemma call_result_not_validation (w : World) (argv : list string) :
  call_result w argv <> Raise (ValueError error_message).
Proof.
  rewrite call_result_cases.
  destruct (spawn w argv); [|destruct (has_nul argv)]; discriminate.
Qed.

(** *** One run of [main] *)

(** The two outcomes of [parse_meta] in the goal. *)
Ltac parse_cases Hp :=
  match goal with
  | |- context [parse_meta ?path ?w] =>
      destruct (parse_meta path w) as [[[[?wd ?ht] ?pf]|?e] ?t] eqn:Hp
  end.

Section Run.

Variables (args : Namespace) (w : World).

(** The whole run, case by case. *)
Lemma main_eq :
  main args w =
  if valid_output args then
    match parse_meta (meta args) w with
    | (Ok (width, height, pixel_format), t) =>
        let argv := cmd args width height (lower pixel_format) in
        (call_result w argv, (t ++ [EvCall argv])%list)
    | (Raise e, t) => (Raise e, t)
    end
  else (Raise (ValueError error_message), []).
Proof.
  unfold main, valid_output, bind.
  destruct (endswith (output args) ".jpg"), (endswith (output args) ".png");
    cbn [negb andb orb raise ret app]; try reflexivity;
    destruct (parse_meta (meta args) w) as [[[[wd ht] pf]|e] t];
    try reflexivity;
    unfold call_result, subprocess_call; cbv zeta;
    destruct (has_nul _); try destruct (tool w _);
    cbn [ret fst]; now rewrite ?app_nil_r.
Qed.

Lemma main_invalid_output :
  valid_output args = false ->
  main args w = (Raise (ValueError error_message), []).
Proof. intros H. now rewrite main_eq, H. Qed.

Lemma main_parse_error e t :
  valid_output args = true ->
  parse_meta (meta args) w = (Raise e, t) ->
  main args w = (Raise e, [EvOpen (meta args)]).
Proof.
  intros Hv Hp. rewrite main_eq, Hv, Hp.
  now rewrite (parse_meta_trace_eq _ _ _ _ Hp).
Qed.

Lemma main_parse_ok wd ht pf t :
  valid_output args = true ->
  parse_meta (meta args) w = (Ok (wd, ht, pf), t) ->
  main args w =
  (call_result w (cmd args wd ht (lower pf)),
   [EvOpen (meta args); EvCall (cmd args wd ht (lower pf))]).
Proof.
  intros Hv Hp. rewrite main_eq, Hv, Hp.
  now rewrite (parse_meta_trace_eq _ _ _ _ Hp).
Qed.

(** Whatever happens, the command is called at most once, and when it is
    called the metadata was parsed and the command is [cmd]. *)
Lemma main_called (argv : list string) :
  In argv (called (snd (main args w))) ->
  exists wd ht pf,
    valid_output args = true
    /\ parse_meta (meta args) w = (Ok (wd, ht, pf), [EvOpen (meta args)])
    /\ argv = cmd args wd ht (lower pf)
    /\ snd (main args w) = [EvOpen (meta args); EvCall argv].
Proof.
  destruct (valid_output args) eqn:Hv.
  - parse_cases Hp.
    + rewrite (main_parse_ok _ _ _ _ Hv Hp). simpl.
      intros [<-|[]]. exists wd, ht, pf.
      now rewrite (parse_meta_trace_eq _ _ _ _ Hp).
    + rewrite (main_parse_error _ _ Hv Hp). simpl. intros [].
  - rewrite (main_invalid_output Hv). simpl. intros [].
Qed.

(** X17: in every run, [subprocess.call] is executed at most once. *)
Lemma main_calls_at_most_once :
  calls (snd (main args w)) <= 1.
Proof.
  rewrite main_eq. destruct (valid_output args); simpl; [|lia].
  parse_cases Hp;
    rewrite (parse_meta_trace_eq _ _ _ _ Hp); simpl; lia.
Qed.

End Run.

(** *** Metadata lines *)

Lemma field_strip_none (ls : list string) (i : nat) :
  field (map strip ls) i = None <->
  nth_error ls i = None
  \/ exists l, nth_error ls i = Some l /\ contains SP (strip l) = false.
Proof.
  unfold field. rewrite nth_error_map.
  destruct (nth_error ls i) as [l|]; cbn [option_map].
  - rewrite split_second. split.
    + intros H. right. now exists l.
    + intros [H|(l' & [= <-] & H)]; [discriminate | exact H].
  - split; auto.
Qed.

Lemma field_meta_line (ls : list string) (i : nat) label value line :
  nth_error ls i = Some line ->
  token label = true -> token value = true ->
  meta_line label value line ->
  field (map strip ls) i = Some value.
Proof.
  intros Hn Hl Hv Hm. unfold field. rewrite nth_error_map, Hn.
  cbn [option_map].
  rewrite (strip_meta_line _ _ _ Hl Hv Hm).
  now apply split_label_value.
Qed.

Lemma expected_format_error (ls : list string) :
  (List.length ls <? 3)%nat
  || existsb (fun l => negb (contains SP (strip l))) (firstn 3 ls) = true ->
  field (map strip ls) 0 = None \/ field (map strip ls) 1 = None
  \/ field (map strip ls) 2 = None.
Proof.
  rewrite !field_strip_none.
  destruct ls as [|a [|b [|c r]]]; simpl; auto.
  rewrite orb_false_r, !orb_true_iff, !negb_true_iff.
  intros [H|[H|H]]; [left | right; left | right; right]; right; eauto.
Qed.

Lemma expected_no_error (ls : list string) :
  (List.length ls <? 3)%nat
  || existsb (fun l => negb (contains SP (strip l))) (firstn 3 ls) = false ->
  exists wd ht pf,
    field (map strip ls) 0 = Some wd /\ field (map strip ls) 1 = Some ht
    /\ field (map strip ls) 2 = Some pf.
Proof.
  intros H.
  assert (Hn : forall i, i < 3 -> field (map strip ls) i <> None).
  { intros i Hi Hf. apply field_strip_none in Hf.
    destruct ls as [|a [|b [|c r]]]; simpl in H; try discriminate.
    rewrite orb_false_r, !orb_false_iff, !negb_false_iff in H.
    destruct H as (Ha & Hb & Hc).
    destruct i as [|[|[|i]]]; simpl in Hf; try lia;
      destruct Hf as [Hf|(l & [= <-] & Hf)]; congruence. }
  destruct (field (map strip ls) 0) as [wd|] eqn:E0;
    [|exfalso; apply (Hn 0); [lia | assumption]].
  destruct (field (map strip ls) 1) as [ht|] eqn:E1;
    [|exfalso; apply (Hn 1); [lia | assumption]].
  destruct (field (map strip ls) 2) as [pf|] eqn:E2;
    [|exfalso; apply (Hn 2); [lia | assumption]].
  now exists wd, ht, pf.
Qed.

(** [parse_meta] succeeds exactly when no failure is announced. *)
Lemma parse_meta_succeeds (path : string) (w : World) :
  expected_meta_error w path = None ->
  exists wd ht pf, parse_meta path w = (Ok (wd, ht, pf), [EvOpen path]).
Proof.
  unfold expected_meta_error. rewrite parse_meta_eq.
  destruct (files w path) as [text|]; [|discriminate]. cbv zeta.
  destruct (_ || _) eqn:E; [discriminate|]. intros _.
  destruct (expected_no_error _ E) as (wd & ht & pf & -> & -> & ->).
  now exists wd, ht, pf.
Qed.

Lemma parse_meta_first_lines (path path' : string) (w w' : World) text text' :
  files w path = Some text -> files w' path' = Some text' ->
  firstn 3 (readlines text) = firstn 3 (readlines text') ->
  fst (parse_meta path w) = fst (parse_meta path' w').
Proof.
  intros Hf Hf' Hl. rewrite !parse_meta_eq, Hf, Hf'. cbv zeta. simpl fst.
  assert (E : forall i, i < 3 ->
            field (map strip (readlines text)) i
            = field (map strip (readlines text')) i).
  { intros i Hi. unfold field. rewrite !nth_error_map.
    pose proof (nth_error_firstn 3 (readlines text) i) as E.
    pose proof (nth_error_firstn 3 (readlines text') i) as E'.
    apply Nat.ltb_lt in Hi. rewrite Hi in E, E'.
    now rewrite <- E, <- E', Hl. }
  now rewrite (E 0), (E 1), (E 2) by lia.
Qed.

Lemma parse_meta_fst (path : string) (w : World) r :
  fst (parse_meta path w) = r -> parse_meta path w = (r, [EvOpen path]).
Proof.
  intros <-. rewrite <- (parse_meta_trace path w). now destruct (parse_meta _ _).
Qed.

(** The announced format error, in words of lines. *)
Lemma expected_format_error_iff (w : World) (path : string) :
  expected_meta_error w path = Some IndexError <->
  exists text,
    files w path = Some text
    /\ (List.length (readlines text) < 3
        \/ exists i l, i < 3 /\ nth_error (readlines text) i = Some l
                       /\ contains SP (strip l) = false).
Proof.
  unfold expected_meta_error. split.
  - destruct (files w path) as [text|]; [|discriminate].
    cbv zeta. destruct (_ || _) eqn:E; [|discriminate]. intros _.
    exists text. split; [reflexivity|].
    apply orb_true_iff in E as [E|E].
    + left. now apply Nat.ltb_lt.
    + right. apply existsb_exists in E as (l & Hin & Hl).
      apply In_nth_error in Hin as [i Hi].
      pose proof (nth_error_firstn 3 (readlines text) i) as Hn.
      rewrite Hi in Hn. destruct (i <? 3)%nat eqn:Hlt; [|discriminate].
      exists i, l. apply Nat.ltb_lt in Hlt.
      now rewrite negb_true_iff in Hl.
  - intros (text & -> & H). cbv zeta.
    destruct (_ || _) eqn:E; [reflexivity|exfalso].
    apply orb_false_iff in E as [E1 E2]. apply Nat.ltb_ge in E1.
    destruct H as [H|(i & l & Hi & Hn & Hl)]; [lia|].
    assert (Hex : existsb (fun l => negb (contains SP (strip l)))
                    (firstn 3 (readlines text)) = true).
    { apply existsb_exists. exists l. split; [|now rewrite Hl].
      apply nth_error_In with i. rewrite nth_error_firstn.
      apply Nat.ltb_lt in Hi. now rewrite Hi. }
    congruence.
Qed.

(** ** The properties *)

(** C1: with metadata that parses to width 640, height 480 and pixel format
    NV21, input path input.nv21, output path out.jpg and no overwrite, the
    one command handed to the external tool is exactly
    ffmpeg -n -f image2 -vcodec rawvideo -pix_fmt nv21 -s 640x480
    -i input.nv21 out.jpg. *)
Theorem cmd_nv21_640x480 (args : Namespace) (w : World) :
  fst (parse_meta (meta args) w) = Ok ("640", "480", "NV21") ->
  input args = "input.nv21" -> output args = "out.jpg" ->
  overwrite args = false ->
  called (snd (main args w))
  = [["ffmpeg"; "-n"; "-f"; "image2"; "-vcodec"; "rawvideo"; "-pix_fmt";
      "nv21"; "-s"; "640x480"; "-i"; "input.nv21"; "out.jpg"]].
Proof.
  intros Hp Hi Ho Hw. apply parse_meta_fst in Hp.
  assert (Hv : valid_output args = true) by (unfold valid_output; now rewrite Ho).
  rewrite (main_parse_ok _ _ _ _ _ _ Hv Hp).
  unfold cmd, overwrite_flag. now rewrite Hi, Ho, Hw.
Qed.

Lemma cmd_nv21_640x480_witness :
  fst (parse_meta (meta args_jpg) (world_640x480 (ffmpeg_status 0)))
  = Ok ("640", "480", "NV21")
  /\ called (snd (main args_jpg (world_640x480 (ffmpeg_status 0))))
     = [cmd_640x480].
Proof.
  split; [reflexivity|].
  apply (cmd_nv21_640x480 args_jpg (world_640x480 (ffmpeg_status 0)));
    reflexivity.
Defined.

(** C2: when the first three lines of the metadata file are
    width w, height h and pixel_format p, with any white space before and
    after each line, [parse_meta] returns exactly (w, h, p): each line is
    stripped, split at single spaces, and its second piece is the value. *)
Theorem parse_meta_well_formed
    (w : World) (path text l0 l1 l2 : string) (rest : list string)
    (wd ht pf : string) :
  files w path = Some text ->
  readlines text = l0 :: l1 :: l2 :: rest ->
  meta_line "width" wd l0 ->
  meta_line "height" ht l1 ->
  meta_line "pixel_format" pf l2 ->
  token wd = true -> token ht = true -> token pf = true ->
  parse_meta path w = (Ok (wd, ht, pf), [EvOpen path])
  /\ nth_error (split SP (strip l0)) 1 = Some wd
  /\ nth_error (split SP (strip l1)) 1 = Some ht
  /\ nth_error (split SP (strip l2)) 1 = Some pf.
Proof.
  intros Hf Hr H0 H1 H2 Hw Hh Hp.
  assert (F0 : field (map strip (readlines text)) 0 = Some wd)
    by (apply field_meta_line with "width" l0; now rewrite ?Hr).
  assert (F1 : field (map strip (readlines text)) 1 = Some ht)
    by (apply field_meta_line with "height" l1; now rewrite ?Hr).
  assert (F2 : field (map strip (readlines text)) 2 = Some pf)
    by (apply field_meta_line with "pixel_format" l2; now rewrite ?Hr).
  split.
  - rewrite parse_meta_eq, Hf. cbv zeta. now rewrite F0, F1, F2.
  - unfold field in F0, F1, F2. rewrite nth_error_map, Hr in F0, F1, F2.
    auto.
Qed.

Lemma parse_meta_well_formed_witness :
  parse_meta "meta.txt"
    (world_with "meta.txt" metadata_padded (ffmpeg_status 0))
  = (Ok ("640", "480", "NV21"), [EvOpen "meta.txt"]).
Proof.
  apply (parse_meta_well_formed
           (world_with "meta.txt" metadata_padded (ffmpeg_status 0))
           "meta.txt" metadata_padded
           ("  width 640 " ++ String TAB (String LF ""))
           ("height 480" ++ String LF "")
           (String TAB "pixel_format NV21  ") []
           "640" "480" "NV21"); try reflexivity.
  - exists "  ", (" " ++ String TAB (String LF "")). now repeat split.
  - exists "", (String LF ""). now repeat split.
  - exists (String TAB ""), "  ". now repeat split.
Defined.

(** C3: [parse_meta] raises the file access error when the metadata file is
    missing or unreadable, and the index error when the file has fewer than
    three lines or one of the first three, stripped, has no space; the
    error is not caught and the external tool is not called. *)
Theorem parse_meta_failures (args : Namespace) (w : World) (e : Exn) :
  expected_meta_error w (meta args) = Some e ->
  parse_meta (meta args) w = (Raise e, [EvOpen (meta args)])
  /\ called (snd (main args w)) = []
  /\ main args w
     = if valid_output args then (Raise e, [EvOpen (meta args)])
       else (Raise (ValueError error_message), []).
Proof.
  intros He.
  assert (Hp : parse_meta (meta args) w = (Raise e, [EvOpen (meta args)])).
  { unfold expected_meta_error in He. rewrite parse_meta_eq.
    destruct (files w (meta args)) as [text|]; [|now injection He as <-].
    cbv zeta in *. destruct (_ || _) eqn:E; [|discriminate].
    injection He as <-.
    destruct (expected_format_error _ E) as [H|[H|H]]; rewrite H;
      repeat match goal with
      | |- context [match ?f with _ => _ end] => destruct f
      end; reflexivity. }
  split; [exact Hp|].
  destruct (valid_output args) eqn:Hv.
  - now rewrite (main_parse_error _ _ _ _ Hv Hp).
  - now rewrite (main_invalid_output _ _ Hv).
Qed.

Lemma parse_meta_failures_witness :
  main args_jpg (world_with "meta.txt" metadata_no_value (ffmpeg_status 0))
  = (Raise IndexError, [EvOpen "meta.txt"])
  /\ main args_jpg (world_with "other.txt" metadata_640x480 (ffmpeg_status 0))
     = (Raise (OSError "meta.txt"), [EvOpen "meta.txt"]).
Proof.
  split.
  - apply (parse_meta_failures args_jpg
             (world_with "meta.txt" metadata_no_value (ffmpeg_status 0))
             IndexError).
    reflexivity.
  - apply (parse_meta_failures args_jpg
             (world_with "other.txt" metadata_640x480 (ffmpeg_status 0))
             (OSError "meta.txt")).
    reflexivity.
Defined.

(** C4: an output path that ends neither in .jpg nor in .png (the match is
    case sensitive) makes the script raise the validation error before any
    file is opened or command called; a path ending in .jpg or .png passes
    the check: the validation error is not raised and the script goes on
    to open the metadata file. *)
Theorem output_extension_checked (args : Namespace) (w : World) :
  (endswith (output args) ".jpg" = false ->
   endswith (output args) ".png" = false ->
   main args w = (Raise (ValueError error_message), [])
   /\ called (snd (main args w)) = [])
  /\ (endswith (output args) ".jpg" = true
      \/ endswith (output args) ".png" = true ->
      fst (main args w) <> Raise (ValueError error_message)
      /\ exists t, snd (main args w) = EvOpen (meta args) :: t).
Proof.
  split.
  - intros Hj Hp.
    assert (Hv : valid_output args = false)
      by (unfold valid_output; now rewrite Hj, Hp).
    now rewrite (main_invalid_output _ _ Hv).
  - intros H.
    assert (Hv : valid_output args = true)
      by (unfold valid_output; destruct H as [-> | ->];
          auto using orb_true_r).
    destruct (parse_meta (meta args) w) as [[[[wd ht] pf]|e] t] eqn:Hp.
    + rewrite (main_parse_ok _ _ _ _ _ _ Hv Hp). split; [|simpl; eauto].
      apply call_result_not_validation.
    + rewrite (main_parse_error _ _ _ _ Hv Hp). split; [|simpl; eauto].
      simpl. intros [= ->].
      rewrite parse_meta_eq in Hp.
      destruct (files w (meta args)); [|discriminate]. cbv zeta in Hp.
      repeat match type of Hp with
      | context [match ?f with _ => _ end] => destruct f
      end; discriminate.
Qed.

Lemma output_extension_checked_witness :
  (main (args_output "out.gif") (world_640x480 (ffmpeg_status 0))
   = (Raise (ValueError error_message), [])
   /\ main (args_output "out") (world_640x480 (ffmpeg_status 0))
      = (Raise (ValueError error_message), [])
   /\ main (args_output "out.JPG") (world_640x480 (ffmpeg_status 0))
      = (Raise (ValueError error_message), []))
  /\ fst (main (args_output "out.png") (world_640x480 (ffmpeg_status 0)))
     <> Raise (ValueError error_message).
Proof.
  pose (w := world_640x480 (ffmpeg_status 0)).
  split; [split; [|split]|].
  - exact (proj1 (proj1 (output_extension_checked (args_output "out.gif") w)
                    eq_refl eq_refl)).
  - exact (proj1 (proj1 (output_extension_checked (args_output "out") w)
                    eq_refl eq_refl)).
  - exact (proj1 (proj1 (output_extension_checked (args_output "out.JPG") w)
                    eq_refl eq_refl)).
  - exact (proj1 (proj2 (output_extension_checked (args_output "out.png") w)
                    (or_intror eq_refl))).
Defined.

Lemma size_token_not_flag (wd ht : string) (c : ascii) :
  c <> "x"%char -> wd ++ "x" ++ ht <> String "-" (String c "").
Proof.
  intros Hc. destruct wd as [|a [|b [|d wd]]]; simpl; try discriminate.
  intros [= _ E]. now apply Hc.
Qed.

Lemma valid_output_not_flag (args : Namespace) (c : ascii) :
  valid_output args = true -> output args <> String "-" (String c "").
Proof.
  unfold valid_output. intros H E. rewrite E in H.
  unfold endswith in H. simpl in H. discriminate.
Qed.

(** C5: the command has the overwrite flag right after the program name:
    it is -n exactly when overwrite is false and -y exactly when overwrite
    is true, never both and always one of them; nothing else in the command
    depends on overwrite, and apart from a pixel format or an input path
    that is itself that string, -n and -y occur nowhere else. *)
Theorem overwrite_flag_exclusive
    (args : Namespace) (w : World) (argv : list string) :
  In argv (called (snd (main args w))) ->
  (nth_error argv 1 = Some "-n" <-> overwrite args = false)
  /\ (nth_error argv 1 = Some "-y" <-> overwrite args = true)
  /\ (nth_error argv 1 = Some "-n" \/ nth_error argv 1 = Some "-y")
  /\ ~ (nth_error argv 1 = Some "-n" /\ nth_error argv 1 = Some "-y")
  /\ (forall b,
        called (snd (main (with_overwrite b args) w))
        = [hd "" argv :: (if b then "-y" else "-n") :: skipn 2 argv])
  /\ (input args <> "-n" -> nth_error argv 7 <> Some "-n" ->
      (In "-n" argv <-> overwrite args = false))
  /\ (input args <> "-y" -> nth_error argv 7 <> Some "-y" ->
      (In "-y" argv <-> overwrite args = true)).
Proof.
  intros Hin.
  destruct (main_called _ _ _ Hin) as (wd & ht & pf & Hv & Hp & -> & _).
  pose proof (size_token_not_flag wd ht "n") as Sn.
  pose proof (size_token_not_flag wd ht "y") as Sy.
  pose proof (valid_output_not_flag args "n" Hv) as On.
  pose proof (valid_output_not_flag args "y" Hv) as Oy.
  unfold cmd, overwrite_flag. cbn [nth_error hd skipn].
  split; [|split; [|split; [|split; [|split; [|split]]]]].
  - destruct (overwrite args); split; congruence.
  - destruct (overwrite args); split; congruence.
  - destruct (overwrite args); auto.
  - intros [H1 H2]. destruct (overwrite args); congruence.
  - intros b.
    rewrite (main_parse_ok (with_overwrite b args) w wd ht pf
               [EvOpen (meta args)] Hv Hp).
    reflexivity.
  - intros Hi Hf. destruct (overwrite args); split; try congruence.
    + simpl. intros H.
      repeat (destruct H as [H|H]; try discriminate H);
        first [ contradiction | congruence
              | exfalso; apply Sn; [discriminate | exact H] ].
    + intros _. now right; left.
  - intros Hi Hf. destruct (overwrite args); split; try congruence.
    + intros _. now right; left.
    + simpl. intros H.
      repeat (destruct H as [H|H]; try discriminate H);
        first [ contradiction | congruence
              | exfalso; apply Sy; [discriminate | exact H] ].
Qed.

Lemma overwrite_flag_exclusive_witness :
  (nth_error cmd_640x480 1 = Some "-n" <-> overwrite args_jpg = false)
  /\ (nth_error cmd_640x480 1 = Some "-y" <-> overwrite args_jpg = true).
Proof.
  split;
    apply (overwrite_flag_exclusive args_jpg
             (world_640x480 (ffmpeg_status 0)) cmd_640x480);
    left; reflexivity.
Defined.

(** C6: in the command, the token after -pix_fmt is the pixel format of
    the metadata lower-cased (so without upper-case letter, and of the same
    length), and the token after -s is the parsed width, the character x
    and the parsed height, and nothing else. *)
Theorem cmd_pixel_format_and_size
    (args : Namespace) (w : World) (argv : list string) :
  In argv (called (snd (main args w))) ->
  exists wd ht pf,
    fst (parse_meta (meta args) w) = Ok (wd, ht, pf)
    /\ nth_error argv 6 = Some "-pix_fmt"
    /\ nth_error argv 7 = Some (lower pf)
    /\ has_upper (lower pf) = false
    /\ String.length (lower pf) = String.length pf
    /\ nth_error argv 8 = Some "-s"
    /\ nth_error argv 9 = Some (wd ++ "x" ++ ht)
    /\ String.length (wd ++ "x" ++ ht)
       = String.length wd + 1 + String.length ht.
Proof.
  intros Hin.
  destruct (main_called _ _ _ Hin) as (wd & ht & pf & _ & Hp & -> & _).
  exists wd, ht, pf. rewrite Hp.
  repeat split; auto using lower_no_upper, lower_length.
  rewrite append_length. simpl. lia.
Qed.

Lemma cmd_pixel_format_and_size_witness :
  exists wd ht pf,
    fst (parse_meta "meta.txt" (world_640x480 (ffmpeg_status 0)))
    = Ok (wd, ht, pf)
    /\ nth_error cmd_640x480 6 = Some "-pix_fmt"
    /\ nth_error cmd_640x480 7 = Some (lower pf)
    /\ has_upper (lower pf) = false
    /\ String.length (lower pf) = String.length pf
    /\ nth_error cmd_640x480 8 = Some "-s"
    /\ nth_error cmd_640x480 9 = Some (wd ++ "x" ++ ht)
    /\ String.length (wd ++ "x" ++ ht)
       = String.length wd + 1 + String.length ht.
Proof.
  apply (cmd_pixel_format_and_size args_jpg
           (world_640x480 (ffmpeg_status 0)) cmd_640x480).
  left. reflexivity.
Defined.

(** C7 as stated fails: with a missing metadata file and an invalid output
    extension, the script raises the validation error and never opens the
    metadata file. *)
Lemma metadata_failure_not_first :
  expected_meta_error world_no_files (meta args_gif_missing)
  = Some (OSError "missing.txt")
  /\ valid_output args_gif_missing = false
  /\ main args_gif_missing world_no_files
     = (Raise (ValueError error_message), [])
  /\ ~ (exists t, main args_gif_missing world_no_files
                  = (Raise (OSError "missing.txt"), t)).
Proof.
  repeat split. intros [t H]. discriminate H.
Qed.

(** C7, amended: after the arguments are parsed, the script validates the
    output extension, then parses the metadata file, then builds the
    command and calls the external tool, and ends.  A run is one of: the
    validation error with nothing opened; the metadata error after the
    metadata file was opened, with nothing called; the opening of the
    metadata file followed by one call of the command. *)
Theorem main_step_order (args : Namespace) (w : World) :
  (valid_output args = false
   /\ main args w = (Raise (ValueError error_message), []))
  \/ (valid_output args = true
      /\ exists e,
           parse_meta (meta args) w = (Raise e, [EvOpen (meta args)])
           /\ main args w = (Raise e, [EvOpen (meta args)]))
  \/ (valid_output args = true
      /\ exists wd ht pf,
           parse_meta (meta args) w = (Ok (wd, ht, pf), [EvOpen (meta args)])
           /\ snd (main args w)
              = [EvOpen (meta args); EvCall (cmd args wd ht (lower pf))]).
Proof.
  destruct (valid_output args) eqn:Hv.
  - right.
    destruct (parse_meta (meta args) w) as [[[[wd ht] pf]|e] t] eqn:Hp;
      pose proof (parse_meta_trace_eq _ _ _ _ Hp) as ->.
    + right. split; [reflexivity|]. exists wd, ht, pf.
      now rewrite (main_parse_ok _ _ _ _ _ _ Hv Hp).
    + left. split; [reflexivity|]. exists e.
      now rewrite (main_parse_error _ _ _ _ Hv Hp).
  - left. now rewrite (main_invalid_output _ _ Hv).
Qed.

(** C8: when the command is reached, it is called exactly once, and
    whatever exit status the external tool returns, the script ends
    normally, with the same result and exit status 0. *)
Theorem exit_status_ignored
    (args : Namespace) (w : World) (wd ht pf : string) (status : Z) :
  valid_output args = true ->
  fst (parse_meta (meta args) w) = Ok (wd, ht, pf) ->
  spawn w (cmd args wd ht (lower pf)) = Some status ->
  main args w
  = (Ok tt, [EvOpen (meta args); EvCall (cmd args wd ht (lower pf))])
  /\ calls (snd (main args w)) = 1
  /\ exit_status (fst (main args w)) = 0%Z.
Proof.
  intros Hv Hp Hs. apply parse_meta_fst in Hp.
  rewrite (main_parse_ok _ _ _ _ _ _ Hv Hp), (call_result_started _ _ _ Hs).
  now repeat split.
Qed.

Lemma exit_status_ignored_witness :
  main args_jpg (world_640x480 (ffmpeg_status 1))
  = (Ok tt, [EvOpen "meta.txt"; EvCall cmd_640x480])
  /\ main args_jpg (world_640x480 (ffmpeg_status 0))
     = (Ok tt, [EvOpen "meta.txt"; EvCall cmd_640x480]).
Proof.
  split.
  - apply (exit_status_ignored args_jpg (world_640x480 (ffmpeg_status 1))
             "640" "480" "NV21" 1%Z); reflexivity.
  - apply (exit_status_ignored args_jpg (world_640x480 (ffmpeg_status 0))
             "640" "480" "NV21" 0%Z); reflexivity.
Defined.

(** C9: whatever strings the metadata gives for width and height, numeric
    or not, the script checks nothing about them: the command is built
    with the two strings put as they are into the size token and is handed
    to [subprocess.call]; the run raises neither the validation error nor
    the index error, and ends as the call of that command ends. *)
Theorem width_height_not_validated
    (args : Namespace) (w : World) (wd ht pf : string) :
  valid_output args = true ->
  fst (parse_meta (meta args) w) = Ok (wd, ht, pf) ->
  called (snd (main args w)) = [cmd args wd ht (lower pf)]
  /\ nth_error (cmd args wd ht (lower pf)) 9 = Some (wd ++ "x" ++ ht)
  /\ fst (main args w) <> Raise (ValueError error_message)
  /\ fst (main args w) <> Raise IndexError
  /\ fst (main args w)
     = match fst (subprocess_call (cmd args wd ht (lower pf)) w) with
       | Ok _ => Ok tt
       | Raise e => Raise e
       end.
Proof.
  intros Hv Hp. apply parse_meta_fst in Hp.
  rewrite (main_parse_ok _ _ _ _ _ _ Hv Hp). cbn [fst snd called].
  split; [reflexivity|]. split; [reflexivity|].
  split; [apply call_result_not_validation|].
  split; [apply call_result_not_index | reflexivity].
Qed.

Lemma width_height_not_validated_witness :
  called (snd (main args_jpg
                 (world_with "meta.txt" metadata_not_numeric
                    (ffmpeg_status 1))))
  = [["ffmpeg"; "-n"; "-f"; "image2"; "-vcodec"; "rawvideo"; "-pix_fmt";
      "nv21"; "-s"; "abcx-5"; "-i"; "input.nv21"; "out.jpg"]].
Proof.
  apply (width_height_not_validated args_jpg
           (world_with "meta.txt" metadata_not_numeric (ffmpeg_status 1))
           "abc" "-5" "NV21"); reflexivity.
Defined.

Lemma readlines_three_lines (a b c rest : string) :
  one_line a = true -> one_line b = true -> one_line c = true ->
  firstn 3 (readlines
              (a ++ String LF (b ++ String LF (c ++ String LF rest))))
  = [a ++ String LF ""; b ++ String LF ""; c ++ String LF ""].
Proof.
  intros Ha Hb Hc. now rewrite !readlines_line by assumption.
Qed.

(** Text after three terminated lines does not change the result. *)
Lemma parse_meta_extra_text (w w' : World) (path a b c rest : string) :
  one_line a = true -> one_line b = true -> one_line c = true ->
  files w path = Some (a ++ String LF (b ++ String LF (c ++ String LF ""))) ->
  files w' path
  = Some (a ++ String LF (b ++ String LF (c ++ String LF rest))) ->
  parse_meta path w' = parse_meta path w.
Proof.
  intros Ha Hb Hc Hf Hf'.
  rewrite (parse_meta_fst path w _ eq_refl).
  apply parse_meta_fst. symmetry.
  apply (parse_meta_first_lines _ _ _ _ _ _ Hf Hf').
  now rewrite !readlines_three_lines.
Qed.



(** ** Further properties of [parse_meta] *)

Lemma field_strip_some (ls : list string) (i : nat) (v : string) :
  field (map strip ls) i = Some v ->
  exists l, nth_error ls i = Some l /\ contains SP (strip l) = true
            /\ nth_error (split SP (strip l)) 1 = Some v.
Proof.
  unfold field. rewrite nth_error_map.
  destruct (nth_error ls i) as [l|]; cbn [option_map]; [|discriminate].
  intros H. exists l. repeat split; [|exact H].
  destruct (contains SP (strip l)) eqn:E; [reflexivity|].
  apply split_second in E. congruence.
Qed.

Lemma field_of_line (ls : list string) (i : nat) (l : string) :
  nth_error ls i = Some l ->
  field (map strip ls) i = nth_error (split SP (strip l)) 1.
Proof.
  intros H. unfold field. now rewrite nth_error_map, H.
Qed.

(** X1: [parse_meta] returns a triple exactly when the file can be read,
    has at least three lines, and each of the first three, stripped, holds
    a space. *)
Theorem parse_meta_ok_iff (path : string) (w : World) :
  (exists m, fst (parse_meta path w) = Ok m) <->
  exists text l0 l1 l2 rest,
    files w path = Some text
    /\ readlines text = l0 :: l1 :: l2 :: rest
    /\ contains SP (strip l0) = true
    /\ contains SP (strip l1) = true
    /\ contains SP (strip l2) = true.
Proof.
  rewrite parse_meta_eq. split.
  - intros [m Hm]. destruct (files w path) as [text|]; [|discriminate].
    cbv zeta in Hm. cbn [fst] in Hm.
    destruct (field _ 0) as [a|] eqn:F0; [|discriminate].
    destruct (field _ 1) as [b|] eqn:F1; [|discriminate].
    destruct (field _ 2) as [c|] eqn:F2; [|discriminate].
    apply field_strip_some in F0 as (l0 & N0 & C0 & _).
    apply field_strip_some in F1 as (l1 & N1 & C1 & _).
    apply field_strip_some in F2 as (l2 & N2 & C2 & _).
    destruct (readlines text) as [|x0 [|x1 [|x2 rest]]] eqn:Hr;
      try discriminate.
    cbn in N0, N1, N2. injection N0 as ->. injection N1 as ->.
    injection N2 as ->. exists text, l0, l1, l2, rest. now rewrite Hr.
  - intros (text & l0 & l1 & l2 & rest & -> & Hr & C0 & C1 & C2).
    cbv zeta. cbn [fst]. rewrite Hr.
    rewrite (field_of_line _ 0 l0), (field_of_line _ 1 l1),
      (field_of_line _ 2 l2) by reflexivity.
    destruct (split_with_sep _ _ C0) as (a0 & b0 & t0 & ->).
    destruct (split_with_sep _ _ C1) as (a1 & b1 & t1 & ->).
    destruct (split_with_sep _ _ C2) as (a2 & b2 & t2 & ->).
    cbn. eauto.
Qed.

Lemma split_not_nil (sep : ascii) (s : string) : split sep s <> [].
Proof.
  destruct s as [|c s]; simpl; [discriminate|].
  destruct (Ascii.eqb c sep); [discriminate|].
  destruct (split sep s); discriminate.
Qed.

Lemma split_first (sep : ascii) (s a : string) (t : list string) :
  split sep s = a :: t ->
  contains sep a = false
  /\ ((t = [] /\ s = a)
      \/ exists b, s = a ++ String sep b /\ t = split sep b).
Proof.
  revert a t. induction s as [|c s IH]; intros a t; simpl.
  - intros [= <- <-]. auto.
  - destruct (Ascii.eqb_spec c sep) as [->|Hc].
    + intros [= <- <-]. split; [reflexivity|]. right. now exists s.
    + destruct (split sep s) as [|h t'] eqn:E; intros [= <- <-].
      * now destruct (split_not_nil sep s).
      * destruct (IH h t' eq_refl) as [Hh [[-> ->]|(b & -> & ->)]];
          simpl; apply Ascii.eqb_neq in Hc; rewrite Hc, Hh;
          split; auto.
        right. now exists b.
Qed.

(** The second piece of a split: what lies between the first separator
    and the next one. *)
Lemma split_second_piece (s v : string) :
  nth_error (split SP s) 1 = Some v <->
  exists a r,
    s = a ++ " " ++ v ++ r
    /\ contains SP a = false /\ contains SP v = false
    /\ (r = "" \/ exists r', r = String SP r').
Proof.
  split.
  - destruct (split SP s) as [|a [|v' t]] eqn:E; try discriminate.
    intros [= ->].
    destruct (split_first _ _ _ _ E) as [Ha [[[=] _]|(b & -> & Hb)]].
    symmetry in Hb.
    destruct (split_first _ _ _ _ Hb) as [Hv [[-> ->]|(b' & -> & _)]].
    + exists a, "". rewrite append_empty_r. auto.
    + exists a, (String SP b'). repeat split; eauto.
  - intros (a & r & -> & Ha & Hv & Hr).
    change (a ++ " " ++ v ++ r) with (a ++ String SP (v ++ r)).
    rewrite (split_app_sep _ _ _ Ha).
    destruct Hr as [->|[r' ->]].
    + now rewrite append_empty_r, (split_no_sep _ _ Hv).
    + now rewrite (split_app_sep _ _ _ Hv).
Qed.

Lemma parse_meta_values (path text : string) (w : World) m (i : nat) :
  files w path = Some text ->
  fst (parse_meta path w) = Ok m -> i < 3 ->
  field (map strip (readlines text)) i = Some (value_at i m).
Proof.
  intros Hf Hm Hi. rewrite parse_meta_eq, Hf in Hm. cbv zeta in Hm.
  cbn [fst] in Hm.
  destruct (field _ 0) as [a|] eqn:F0; [|discriminate].
  destruct (field _ 1) as [b|] eqn:F1; [|discriminate].
  destruct (field _ 2) as [c|] eqn:F2; [|discriminate].
  injection Hm as <-. destruct i as [|[|[|i]]]; try assumption. lia.
Qed.

(** X2: the triple returned by [parse_meta] is, line by line, the text
    between the first and the second space of the stripped line (up to the
    end of the line when there is one space only); [parse_meta] returns
    that triple for such a file and for no other. *)
Theorem parse_meta_second_pieces
    (path : string) (w : World) (v0 v1 v2 : string) :
  fst (parse_meta path w) = Ok (v0, v1, v2) <->
  exists text l0 l1 l2 rest,
    files w path = Some text
    /\ readlines text = l0 :: l1 :: l2 :: rest
    /\ second_piece v0 l0 /\ second_piece v1 l1 /\ second_piece v2 l2.
Proof.
  unfold second_piece. split.
  - intros Hm.
    assert (Hf : exists text, files w path = Some text).
    { rewrite parse_meta_eq in Hm.
      destruct (files w path); [eauto | discriminate]. }
    destruct Hf as [text Hf].
    pose proof (parse_meta_values _ _ _ _ 0 Hf Hm ltac:(lia)) as F0.
    pose proof (parse_meta_values _ _ _ _ 1 Hf Hm ltac:(lia)) as F1.
    pose proof (parse_meta_values _ _ _ _ 2 Hf Hm ltac:(lia)) as F2.
    apply field_strip_some in F0 as (l0 & N0 & _ & S0).
    apply field_strip_some in F1 as (l1 & N1 & _ & S1).
    apply field_strip_some in F2 as (l2 & N2 & _ & S2).
    destruct (readlines text) as [|x0 [|x1 [|x2 rest]]] eqn:Hr;
      try discriminate.
    cbn in N0, N1, N2. injection N0 as ->. injection N1 as ->.
    injection N2 as ->.
    exists text, l0, l1, l2, rest. rewrite <- !split_second_piece. auto.
  - intros (text & l0 & l1 & l2 & rest & Hf & Hr & P0 & P1 & P2).
    apply split_second_piece in P0, P1, P2.
    rewrite parse_meta_eq, Hf. cbv zeta. cbn [fst]. rewrite Hr.
    rewrite (field_of_line _ 0 l0), (field_of_line _ 1 l1),
      (field_of_line _ 2 l2) by reflexivity.
    now rewrite P0, P1, P2.
Qed.

(** X3: [parse_meta] does not look at the labels: whatever three tokens
    stand before the values, in whatever order, the values are returned by
    position. *)
Theorem parse_meta_labels_unchecked
    (w : World) (path text l0 l1 l2 : string) (rest : list string)
    (la lb lc wd ht pf : string) :
  files w path = Some text ->
  readlines text = l0 :: l1 :: l2 :: rest ->
  token la = true -> token lb = true -> token lc = true ->
  token wd = true -> token ht = true -> token pf = true ->
  meta_line la wd l0 -> meta_line lb ht l1 -> meta_line lc pf l2 ->
  parse_meta path w = (Ok (wd, ht, pf), [EvOpen path]).
Proof.
  intros Hf Hr Ta Tb Tc Tw Th Tp M0 M1 M2.
  rewrite parse_meta_eq, Hf. cbv zeta.
  rewrite (field_meta_line (readlines text) 0 la wd l0),
    (field_meta_line (readlines text) 1 lb ht l1),
    (field_meta_line (readlines text) 2 lc pf l2);
    now rewrite ?Hr.
Qed.

Lemma parse_meta_labels_unchecked_witness :
  parse_meta "meta.txt"
    (world_with "meta.txt" metadata_other_labels (ffmpeg_status 0))
  = (Ok ("640", "480", "NV21"), [EvOpen "meta.txt"]).
Proof.
  apply (parse_meta_labels_unchecked
           (world_with "meta.txt" metadata_other_labels (ffmpeg_status 0))
           "meta.txt" metadata_other_labels
           ("height 640" ++ String LF "") ("w 480" ++ String LF "")
           ("fmt NV21" ++ String LF "") []
           "height" "w" "fmt" "640" "480" "NV21"); try reflexivity.
  - exists "", (String LF ""). now repeat split.
  - exists "", (String LF ""). now repeat split.
  - exists "", (String LF ""). now repeat split.
Defined.

(** X4: with two spaces after the first word of one of the first three
    lines, the value returned for that line is the empty string. *)
Theorem parse_meta_double_space_empty
    (w : World) (path text l a r : string) (i : nat)
    (m : string * string * string) :
  files w path = Some text ->
  i < 3 -> nth_error (readlines text) i = Some l ->
  strip l = a ++ "  " ++ r -> contains SP a = false ->
  fst (parse_meta path w) = Ok m ->
  value_at i m = "".
Proof.
  intros Hf Hi Hn Hs Ha Hm.
  pose proof (parse_meta_values _ _ _ _ i Hf Hm Hi) as F.
  rewrite (field_of_line _ _ _ Hn), Hs in F.
  change (a ++ "  " ++ r) with (a ++ String SP (String SP r)) in F.
  rewrite (split_app_sep _ _ _ Ha) in F. simpl in F. congruence.
Qed.

Lemma parse_meta_double_space_empty_witness :
  fst (parse_meta "meta.txt"
         (world_with "meta.txt" metadata_double_space (ffmpeg_status 0)))
  = Ok ("", "480", "NV21")
  /\ value_at 0 ("", "480", "NV21") = "".
Proof.
  split; [reflexivity|].
  apply (parse_meta_double_space_empty
           (world_with "meta.txt" metadata_double_space (ffmpeg_status 0))
           "meta.txt" metadata_double_space
           ("width  640" ++ String LF "") "width" "640" 0);
    try reflexivity. lia.
Defined.

(** *** What the returned values can hold *)

Lemma split_piece (sep : ascii) (s p : string) :
  In p (split sep s) ->
  contains sep p = false
  /\ forall c, contains c p = true -> contains c s = true.
Proof.
  revert p. induction s as [|c s IH]; intros p; simpl.
  - intros [<-|[]]. auto.
  - destruct (Ascii.eqb c sep) eqn:Hc.
    + intros [<-|Hin]; [split; [reflexivity | discriminate]|].
      destruct (IH _ Hin) as [H1 H2]. split; [exact H1|].
      intros d Hd. rewrite (H2 _ Hd). apply orb_true_r.
    + destruct (split sep s) as [|h t] eqn:E.
      * now destruct (split_not_nil sep s).
      * intros [<-|Hin].
        -- destruct (IH h (or_introl eq_refl)) as [H1 H2]. simpl.
           rewrite Hc, H1. split; [reflexivity|].
           intros d Hd. apply orb_true_iff in Hd as [Hd|Hd].
           ++ now rewrite Hd.
           ++ rewrite (H2 _ Hd). apply orb_true_r.
        -- destruct (IH p (or_intror Hin)) as [H1 H2]. split; [exact H1|].
           intros d Hd. rewrite (H2 _ Hd). apply orb_true_r.
Qed.

Lemma contains_lstrip (c : ascii) (s : string) :
  contains c (lstrip s) = true -> contains c s = true.
Proof.
  induction s as [|d s IH]; simpl; [discriminate|].
  destruct (isspace d); [|exact (fun H => H)].
  intros H. rewrite (IH H). apply orb_true_r.
Qed.

Lemma contains_rstrip (c : ascii) (s : string) :
  contains c (rstrip s) = true -> contains c s = true.
Proof.
  induction s as [|d s IH]; simpl; [discriminate|].
  destruct (rstrip s) as [|e r].
  - destruct (isspace d); simpl; [discriminate|].
    rewrite orb_false_r. now intros ->.
  - simpl in *. intros H. apply orb_true_iff in H as [H|H].
    + now rewrite H.
    + rewrite (IH H). apply orb_true_r.
Qed.

Lemma contains_strip (c : ascii) (s : string) :
  contains c (strip s) = true -> contains c s = true.
Proof. intros H. now apply contains_lstrip, contains_rstrip. Qed.

Lemma strip_app_space (body post : string) :
  all_space post = true -> strip (body ++ post) = strip body.
Proof.
  intros H. unfold strip. induction body as [|c body IH]; simpl.
  - rewrite <- (append_empty_r post) at 1.
    rewrite lstrip_all_space by exact H. reflexivity.
  - destruct (isspace c); [exact IH|].
    change (String c (body ++ post)) with (String c body ++ post).
    now apply rstrip_app_space.
Qed.

(** A line returned by [readlines]: no terminator inside, one LF or
    nothing at its end. *)
Lemma readlines_lines (s l : string) :
  In l (readlines s) ->
  exists body,
    one_line body = true /\ (l = body ++ String LF "" \/ l = body).
Proof.
  remember (String.length s) as n eqn:Hn.
  assert (Hle : String.length s <= n) by lia. clear Hn.
  revert s l Hle. induction n as [|n IH]; intros s l Hle.
  - destruct s; [intros [] | simpl in Hle; lia].
  - destruct s as [|c s]; [intros []|]. simpl in Hle. simpl.
    destruct (Ascii.eqb c LF) eqn:E1.
    + intros [<-|Hin]; [exists ""; auto | apply (IH s); [lia | exact Hin]].
    + destruct (Ascii.eqb c CR) eqn:E2.
      * destruct s as [|c' s'].
        -- intros [<-|[]]. exists "". auto.
        -- simpl in Hle. destruct (Ascii.eqb c' LF).
           ++ intros [<-|Hin]; [exists ""; auto|].
              apply (IH s'); [lia | exact Hin].
           ++ intros [<-|Hin]; [exists ""; auto|].
              apply (IH (String c' s')); [simpl; lia | exact Hin].
      * destruct (readlines s) as [|l0 ls] eqn:Er.
        -- intros [<-|[]]. exists (String c ""). split; [|auto].
           unfold one_line. simpl. now rewrite E1, E2.
        -- intros [<-|Hin].
           ++ destruct (IH s l0) as (body & Hb & Hl);
                [lia | rewrite Er; now left|].
              exists (String c body). split.
              ** unfold one_line in *. simpl. now rewrite E1, E2.
              ** destruct Hl as [-> | ->]; auto.
           ++ apply (IH s); [lia | rewrite Er; now right].
Qed.

(** X5: a value returned by [parse_meta] holds no space, no line feed and
    no carriage return. *)
Theorem parse_meta_values_clean
    (path : string) (w : World) (m : string * string * string) (i : nat) :
  fst (parse_meta path w) = Ok m -> i < 3 ->
  contains SP (value_at i m) = false
  /\ contains LF (value_at i m) = false
  /\ contains CR (value_at i m) = false.
Proof.
  intros Hm Hi.
  assert (Hf : exists text, files w path = Some text).
  { rewrite parse_meta_eq in Hm.
    destruct (files w path); [eauto | discriminate]. }
  destruct Hf as [text Hf].
  pose proof (parse_meta_values _ _ _ _ i Hf Hm Hi) as F.
  apply field_strip_some in F as (l & Hn & _ & Hs).
  apply nth_error_In in Hn, Hs.
  destruct (split_piece _ _ _ Hs) as [Hsp Hsub].
  destruct (readlines_lines _ _ Hn) as (body & Hb & Hl).
  assert (Hstrip : strip l = strip body).
  { destruct Hl as [-> | ->]; [|reflexivity]. now apply strip_app_space. }
  unfold one_line in Hb. apply andb_true_iff in Hb as [B1 B2].
  rewrite negb_true_iff in B1, B2.
  split; [exact Hsp|].
  split.
  - destruct (contains LF (value_at i m)) eqn:E; [|reflexivity].
    apply Hsub in E. rewrite Hstrip in E. apply contains_strip in E.
    congruence.
  - destruct (contains CR (value_at i m)) eqn:E; [|reflexivity].
    apply Hsub in E. rewrite Hstrip in E. apply contains_strip in E.
    congruence.
Qed.

Lemma parse_meta_values_clean_witness :
  contains SP (value_at 2 ("640", "480", "NV21")) = false
  /\ contains LF (value_at 2 ("640", "480", "NV21")) = false
  /\ contains CR (value_at 2 ("640", "480", "NV21")) = false.
Proof.
  apply (parse_meta_values_clean "meta.txt"
           (world_with "meta.txt" metadata_crlf (ffmpeg_status 0))
           ("640", "480", "NV21") 2); [reflexivity | lia].
Defined.

(** ** Further properties of [main] *)

Lemma parse_meta_error_kind (path : string) (w : World) e t :
  parse_meta path w = (Raise e, t) -> e = OSError path \/ e = IndexError.
Proof.
  rewrite parse_meta_eq. destruct (files w path).
  - cbv zeta.
    destruct (field _ 0); [destruct (field _ 1); [destruct (field _ 2)|]|];
      intros [= <- _]; auto.
  - intros [= <- _]. auto.
Qed.

Lemma valid_output_spec (args : Namespace) :
  valid_output args = true <->
  exists stem,
    output args = stem ++ ".jpg" \/ output args = stem ++ ".png".
Proof.
  unfold valid_output. rewrite orb_true_iff, !endswith_spec. split.
  - intros [[p H]|[p H]]; exists p; auto.
  - intros [p [H|H]]; [left | right]; now exists p.
Qed.

Lemma append_same_length_tail (a b c d : string) :
  String.length b = String.length d -> a ++ b = c ++ d -> b = d.
Proof.
  revert c. induction a as [|x a IH]; intros [|y c] Hl H; simpl in *.
  - exact H.
  - rewrite H in Hl. simpl in Hl. rewrite append_length in Hl. lia.
  - rewrite <- H in Hl. simpl in Hl. rewrite append_length in Hl. lia.
  - injection H as _ H. now apply (IH c).
Qed.

(** X6: every command the script calls is, element by element: ffmpeg,
    the overwrite flag, -f image2 -vcodec rawvideo, -pix_fmt with the
    lower-cased pixel format of the metadata, -s with width x height of
    the metadata, -i with the input path as one element exactly as given,
    and last the output path exactly as given, which ends in .jpg or
    .png: thirteen elements. *)
Theorem cmd_paths_verbatim
    (args : Namespace) (w : World) (argv : list string) :
  In argv (called (snd (main args w))) ->
  exists wd ht pf,
    fst (parse_meta (meta args) w) = Ok (wd, ht, pf)
    /\ argv = [ "ffmpeg"; if overwrite args then "-y" else "-n";
                "-f"; "image2"; "-vcodec"; "rawvideo";
                "-pix_fmt"; lower pf; "-s"; wd ++ "x" ++ ht;
                "-i"; input args; output args ]
    /\ List.length argv = 13
    /\ exists stem,
         output args = stem ++ ".jpg" \/ output args = stem ++ ".png".
Proof.
  intros Hin.
  destruct (main_called _ _ _ Hin) as (wd & ht & pf & Hv & Hp & -> & _).
  exists wd, ht, pf. rewrite Hp.
  split; [reflexivity|]. split; [reflexivity|]. split; [reflexivity|].
  now apply valid_output_spec.
Qed.

Lemma cmd_paths_verbatim_witness :
  exists wd ht pf,
    fst (parse_meta (meta args_jpg) (world_640x480 (ffmpeg_status 0)))
    = Ok (wd, ht, pf)
    /\ cmd_640x480
       = [ "ffmpeg"; if overwrite args_jpg then "-y" else "-n";
           "-f"; "image2"; "-vcodec"; "rawvideo";
           "-pix_fmt"; lower pf; "-s"; wd ++ "x" ++ ht;
           "-i"; input args_jpg; output args_jpg ]
    /\ List.length cmd_640x480 = 13
    /\ exists stem,
         output args_jpg = stem ++ ".jpg"
         \/ output args_jpg = stem ++ ".png".
Proof.
  apply (cmd_paths_verbatim args_jpg (world_640x480 (ffmpeg_status 0))
           cmd_640x480).
  left. reflexivity.
Defined.

(** X7: the script ends normally exactly when the output path has an
    accepted suffix, the metadata parse to a triple, and the command built
    from them can be started. *)
Theorem main_succeeds_iff (args : Namespace) (w : World) :
  fst (main args w) = Ok tt <->
  valid_output args = true
  /\ exists wd ht pf,
       fst (parse_meta (meta args) w) = Ok (wd, ht, pf)
       /\ spawn w (cmd args wd ht (lower pf)) <> None.
Proof.
  split.
  - intros H. destruct (valid_output args) eqn:Hv.
    + split; [reflexivity|].
      destruct (parse_meta (meta args) w) as [[[[wd ht] pf]|e] t] eqn:Hp.
      * exists wd, ht, pf. split; [reflexivity|].
        rewrite (main_parse_ok _ _ _ _ _ _ Hv Hp) in H. simpl in H.
        now apply call_result_ok_iff.
      * rewrite (main_parse_error _ _ _ _ Hv Hp) in H. discriminate.
    + rewrite (main_invalid_output _ _ Hv) in H. discriminate.
  - intros (Hv & wd & ht & pf & Hp & Hs). apply parse_meta_fst in Hp.
    rewrite (main_parse_ok _ _ _ _ _ _ Hv Hp). simpl.
    now apply call_result_ok_iff.
Qed.

(** X8: when the output path is accepted and the metadata parse, but no
    child process is started, the error of [subprocess.call] is not
    caught: the script ends with [ValueError] (embedded null byte) when an
    element of the command holds NUL, whether or not the executable
    exists, and with the error of the missing executable otherwise; in
    both cases after its one call, with exit status 1. *)
Theorem main_tool_not_started
    (args : Namespace) (w : World) (wd ht pf : string) :
  valid_output args = true ->
  fst (parse_meta (meta args) w) = Ok (wd, ht, pf) ->
  spawn w (cmd args wd ht (lower pf)) = None ->
  main args w
  = (Raise (if has_nul (cmd args wd ht (lower pf))
            then ValueError null_byte_message
            else OSError "ffmpeg"),
     [EvOpen (meta args); EvCall (cmd args wd ht (lower pf))])
  /\ exit_status (fst (main args w)) = 1%Z.
Proof.
  intros Hv Hp Hs. apply parse_meta_fst in Hp.
  rewrite (main_parse_ok _ _ _ _ _ _ Hv Hp), call_result_cases, Hs.
  now destruct (has_nul _).
Qed.

Lemma main_tool_not_started_witness :
  main args_jpg (world_640x480 ffmpeg_missing)
  = (Raise (OSError "ffmpeg"), [EvOpen "meta.txt"; EvCall cmd_640x480])
  /\ fst (main args_jpg
            (world_with "meta.txt" metadata_nul_width (ffmpeg_status 0)))
     = Raise (ValueError null_byte_message)
  /\ fst (main args_jpg
            (world_with "meta.txt" metadata_nul_width ffmpeg_missing))
     = Raise (ValueError null_byte_message).
Proof.
  split; [|split].
  - apply (main_tool_not_started args_jpg (world_640x480 ffmpeg_missing)
             "640" "480" "NV21"); reflexivity.
  - exact (f_equal fst
             (proj1 (main_tool_not_started args_jpg
                       (world_with "meta.txt" metadata_nul_width
                          (ffmpeg_status 0))
                       ("6" ++ String NUL "40") "480" "NV21"
                       eq_refl eq_refl eq_refl))).
  - exact (f_equal fst
             (proj1 (main_tool_not_started args_jpg
                       (world_with "meta.txt" metadata_nul_width
                          ffmpeg_missing)
                       ("6" ++ String NUL "40") "480" "NV21"
                       eq_refl eq_refl eq_refl))).
Defined.

(** X9: the script raises its validation error, [ValueError] with the
    message of the script, exactly when the output path is not some stem,
    possibly empty, followed by .jpg or by .png. *)
Theorem main_value_error_iff (args : Namespace) (w : World) :
  fst (main args w) = Raise (ValueError error_message) <->
  ~ exists stem,
      output args = stem ++ ".jpg" \/ output args = stem ++ ".png".
Proof.
  rewrite <- valid_output_spec. split.
  - intros H Hv.
    destruct (parse_meta (meta args) w) as [[[[wd ht] pf]|e] t] eqn:Hp.
    + rewrite (main_parse_ok _ _ _ _ _ _ Hv Hp) in H. simpl in H.
      now apply call_result_not_validation in H.
    + rewrite (main_parse_error _ _ _ _ Hv Hp) in H. simpl in H.
      injection H as ->.
      now destruct (parse_meta_error_kind _ _ _ _ Hp).
  - intros Hv.
    destruct (valid_output args) eqn:E; [now destruct Hv|].
    now rewrite (main_invalid_output _ _ E).
Qed.

(** X10: only the last four characters of the output path count: a path
    ending in four characters [ext] is accepted exactly when [ext] is .jpg
    or .png, letter case included. *)
Theorem output_last_four (args : Namespace) (stem ext : string) :
  output args = stem ++ ext -> String.length ext = 4 ->
  (valid_output args = true <-> ext = ".jpg" \/ ext = ".png").
Proof.
  intros Ho Hl. rewrite valid_output_spec, Ho. split.
  - intros [p [H|H]]; [left | right];
      now apply (append_same_length_tail stem _ p).
  - intros [-> | ->]; exists stem; auto.
Qed.

Lemma output_last_four_witness :
  (valid_output (args_output "a.b.png") = true
   <-> ".png" = ".jpg" \/ ".png" = ".png")
  /\ (valid_output (args_output "out.JPG") = true
      <-> ".JPG" = ".jpg" \/ ".JPG" = ".png").
Proof.
  split.
  - apply (output_last_four (args_output "a.b.png") "a.b" ".png");
      reflexivity.
  - apply (output_last_four (args_output "out.JPG") "out" ".JPG");
      reflexivity.
Defined.

(** X11: an output path of fewer than four characters is always
    refused, before anything is opened or called. *)
Theorem short_output_rejected (args : Namespace) (w : World) :
  String.length (output args) < 4 ->
  main args w = (Raise (ValueError error_message), []).
Proof.
  intros Hl. apply main_invalid_output.
  destruct (valid_output args) eqn:E; [|reflexivity].
  apply valid_output_spec in E as [stem [H|H]];
    rewrite H, append_length in Hl; simpl in Hl; lia.
Qed.

Lemma short_output_rejected_witness :
  main (args_output "jpg") (world_640x480 (ffmpeg_status 0))
  = (Raise (ValueError error_message), []).
Proof.
  apply (short_output_rejected (args_output "jpg")
           (world_640x480 (ffmpeg_status 0))).
  simpl. lia.
Defined.

(** X12: of the file system the script reads the metadata file and
    nothing else: two worlds with the same metadata file give the same
    trace, and the same run when the tool behaves the same.  In
    particular the input file is not opened and need not exist. *)
Theorem main_reads_only_metadata (args : Namespace) (w w' : World) :
  files w (meta args) = files w' (meta args) ->
  snd (main args w) = snd (main args w')
  /\ ((forall argv, spawn w argv = spawn w' argv) ->
      main args w = main args w').
Proof.
  intros Hf.
  assert (Hp : parse_meta (meta args) w = parse_meta (meta args) w')
    by now rewrite !parse_meta_eq, Hf.
  rewrite !main_eq, Hp. destruct (valid_output args); [|auto].
  destruct (parse_meta (meta args) w') as [[[[wd ht] pf]|e] t]; [|auto].
  cbv zeta. split; [reflexivity|]. intros Hs.
  now rewrite !call_result_cases, Hs.
Qed.

Lemma main_reads_only_metadata_witness :
  snd (main args_jpg (world_640x480 (ffmpeg_status 0)))
  = snd (main args_jpg (world_more_files ffmpeg_missing)).
Proof.
  apply (main_reads_only_metadata args_jpg
           (world_640x480 (ffmpeg_status 0))
           (world_more_files ffmpeg_missing)).
  reflexivity.
Defined.

Lemma lower_fixed (s : string) :
  has_upper s = false -> is_ascii s = true -> lower s = s.
Proof.
  induction s as [|c s IH]; simpl; [reflexivity|].
  intros Hu Ha. apply orb_false_iff in Hu as [Hc Hu].
  apply andb_true_iff in Ha as [Hn Ha].
  now rewrite (lower_char_ascii_other _ Hc Hn), IH.
Qed.

(** X13: a pixel format that is ASCII without upper-case letter goes into
    the command unchanged. *)
Theorem lower_case_pixel_format_kept
    (args : Namespace) (w : World) (wd ht pf : string) :
  valid_output args = true ->
  fst (parse_meta (meta args) w) = Ok (wd, ht, pf) ->
  has_upper pf = false -> is_ascii pf = true ->
  called (snd (main args w)) = [cmd args wd ht pf].
Proof.
  intros Hv Hp Hu Ha. apply parse_meta_fst in Hp.
  rewrite (main_parse_ok _ _ _ _ _ _ Hv Hp). simpl.
  now rewrite (lower_fixed _ Hu Ha).
Qed.

Lemma lower_case_pixel_format_kept_witness :
  called (snd (main args_jpg
                 (world_with "meta.txt" metadata_lower_case
                    (ffmpeg_status 0))))
  = [cmd_640x480].
Proof.
  apply (lower_case_pixel_format_kept args_jpg
           (world_with "meta.txt" metadata_lower_case (ffmpeg_status 0))
           "640" "480" "nv21"); reflexivity.
Defined.

(** ** Line terminators *)

Lemma readlines_cons (c : ascii) (s : string) :
  readlines (String c s) =
  if Ascii.eqb c LF then String LF "" :: readlines s
  else if Ascii.eqb c CR then
    match s with
    | String c' s'' =>
        if Ascii.eqb c' LF then String LF "" :: readlines s''
        else String LF "" :: readlines s
    | EmptyString => [String LF ""]
    end
  else match readlines s with
       | [] => [String c ""]
       | l :: ls => String c l :: ls
       end.
Proof. reflexivity. Qed.

Lemma readlines_not_nil (c : ascii) (s : string) :
  readlines (String c s) <> [].
Proof.
  rewrite readlines_cons.
  destruct (Ascii.eqb c LF); [discriminate|].
  destruct (Ascii.eqb c CR).
  - destruct s as [|c' s'']; [discriminate|].
    destruct (Ascii.eqb c' LF); discriminate.
  - destruct (readlines s); discriminate.
Qed.

Lemma replace_lf_cr_no_lf (s : string) :
  contains LF (replace_lf (String CR "") s) = false.
Proof.
  induction s as [|c s IH]; simpl; [reflexivity|].
  destruct (Ascii.eqb c LF) eqn:E; simpl; now rewrite ?E, IH.
Qed.

Lemma readlines_replace_lf (nl s : string) :
  nl = CRLF \/ nl = String CR "" ->
  contains CR s = false ->
  readlines (replace_lf nl s) = readlines s.
Proof.
  intros Hnl. induction s as [|c s IH]; [reflexivity|].
  intros Hc. simpl in Hc. apply orb_false_iff in Hc as [Hc Hs].
  specialize (IH Hs). rewrite readlines_cons. simpl replace_lf.
  destruct (Ascii.eqb c LF) eqn:E.
  - destruct Hnl as [-> | ->].
    + unfold CRLF. simpl append. rewrite readlines_cons. simpl.
      f_equal. exact IH.
    + simpl append. rewrite readlines_cons.
      change (Ascii.eqb CR LF) with false.
      change (Ascii.eqb CR CR) with true. cbv iota.
      pose proof (replace_lf_cr_no_lf s) as Hn.
      destruct (replace_lf (String CR "") s) as [|c' s''] eqn:Er.
      * now rewrite <- IH.
      * simpl in Hn. apply orb_false_iff in Hn as [Hn _].
        now rewrite Hn, IH.
  - rewrite readlines_cons, E, Hc. now rewrite IH.
Qed.

(** X14: a metadata file written with CR LF or with CR line terminators
    gives the same result as the file written with LF. *)
Theorem parse_meta_line_endings
    (w w' : World) (path text nl : string) :
  nl = CRLF \/ nl = String CR "" ->
  contains CR text = false ->
  files w path = Some text ->
  files w' path = Some (replace_lf nl text) ->
  parse_meta path w' = parse_meta path w.
Proof.
  intros Hnl Hc Hf Hf'.
  now rewrite !parse_meta_eq, Hf, Hf', (readlines_replace_lf _ _ Hnl Hc).
Qed.

Lemma parse_meta_line_endings_witness :
  parse_meta "meta.txt"
    (world_with "meta.txt" (replace_lf CRLF metadata_640x480)
       (ffmpeg_status 0))
  = (Ok ("640", "480", "NV21"), [EvOpen "meta.txt"]).
Proof.
  apply (parse_meta_line_endings (world_640x480 (ffmpeg_status 0))
           (world_with "meta.txt" (replace_lf CRLF metadata_640x480)
              (ffmpeg_status 0))
           "meta.txt" metadata_640x480 CRLF);
    try reflexivity. now left.
Defined.

Lemma lf_added_cons (x : string) (ls' ls : list string) :
  lf_added ls' ls -> lf_added (x :: ls') (x :: ls).
Proof.
  intros [-> | [(pre & l & -> & ->) | ->]].
  - now left.
  - right; left. now exists (x :: pre), l.
  - now right; right.
Qed.

Lemma lf_added_prepend (c : ascii) (l' : string) (ls' ls : list string) :
  lf_added (l' :: ls') ls ->
  lf_added (String c l' :: ls')
    (match ls with
     | [] => [String c ""]
     | l :: t => String c l :: t
     end).
Proof.
  intros [H | [(pre & l & -> & H) | <-]].
  - destruct ls as [|l0 t]; simpl in H; injection H as -> ->.
    + right; left. now exists [], (String c "").
    + now left.
  - destruct pre as [|p pre]; simpl in *; injection H as -> ->.
    + right; left. now exists [], (String c l).
    + right; left. now exists (String c p :: pre), l.
  - now right; right.
Qed.

Lemma readlines_lf_added (s : string) :
  lf_added (readlines (s ++ String LF "")) (readlines s).
Proof.
  remember (String.length s) as n eqn:Hn.
  assert (Hle : String.length s <= n) by lia. clear Hn.
  revert s Hle. induction n as [|n IH]; intros s Hle.
  - destruct s; [now left | simpl in Hle; lia].
  - destruct s as [|c s]; [now left|]. simpl in Hle.
    change (String c s ++ String LF "") with (String c (s ++ String LF "")).
    rewrite !readlines_cons.
    destruct (Ascii.eqb c LF).
    + apply lf_added_cons, IH. lia.
    + destruct (Ascii.eqb c CR).
      * destruct s as [|c' s'']; [now right; right|].
        cbn [append]. simpl in Hle. destruct (Ascii.eqb c' LF).
        -- apply lf_added_cons, IH. lia.
        -- apply lf_added_cons.
           apply (IH (String c' s'')). simpl. lia.
      * destruct (readlines (s ++ String LF "")) as [|l' ls'] eqn:E.
        -- destruct s; now apply readlines_not_nil in E.
        -- apply lf_added_prepend. rewrite <- E. apply IH. lia.
Qed.

Lemma field_lf_added (ls' ls : list string) (i : nat) :
  lf_added ls' ls -> field (map strip ls') i = field (map strip ls) i.
Proof.
  intros [-> | [(pre & l & -> & ->) | ->]]; [| |reflexivity].
  - unfold field. rewrite !nth_error_map.
    destruct (Nat.lt_ge_cases i (List.length ls)) as [Hi|Hi].
    + now rewrite nth_error_app1.
    + rewrite nth_error_app2 by exact Hi.
      rewrite (proj2 (nth_error_None ls i) Hi).
      destruct (i - List.length ls) as [|[|k]]; reflexivity.
  - rewrite !map_app. simpl map.
    now rewrite (strip_app_space l (String LF "")).
Qed.

(** X15: one line feed more at the end of the metadata file never changes
    what [parse_meta] returns or raises. *)
Theorem parse_meta_trailing_newline (w w' : World) (path text : string) :
  files w path = Some text ->
  files w' path = Some (text ++ String LF "") ->
  parse_meta path w' = parse_meta path w.
Proof.
  intros Hf Hf'. rewrite !parse_meta_eq, Hf, Hf'. cbv zeta.
  pose proof (readlines_lf_added text) as H.
  now rewrite !(field_lf_added _ _ _ H).
Qed.

Lemma parse_meta_trailing_newline_witness :
  parse_meta "meta.txt" (world_640x480 (ffmpeg_status 0))
  = parse_meta "meta.txt"
      (world_with "meta.txt" metadata_no_final_newline (ffmpeg_status 0)).
Proof.
  apply (parse_meta_trailing_newline
           (world_with "meta.txt" metadata_no_final_newline
              (ffmpeg_status 0))
           (world_640x480 (ffmpeg_status 0))
           "meta.txt" metadata_no_final_newline); reflexivity.
Defined.

(** ** The ways a run can end *)

